(** * Retail recommendation notebook: ranking, polling and lineage loops

    A shallow embedding of the locally implemented logic of
    [use-cases/retail_recommend/2_retail_recommend_train_tune.ipynb]:

    - [get_recommendations] (cell 43): candidate selection, construction of
      the inference frame, one-hot encoding, ranking of the scored candidates;
    - the model-package status polling loop (cell 36);
    - the artifact association loop (cell 23).

    Python exceptions are values of [exn] carried by the [result] monad.
    Library calls (pandas, NumPy, scikit-learn, SciPy) are embedded by the
    behaviour they document; what those libraries leave open (the order of
    ties of NumPy's default sort, the text vectoriser's float arithmetic, the
    remote scoring endpoint) is a parameter of the model. *)

From Stdlib Require Import String Ascii.
From Stdlib Require Import List ZArith Lia Bool Arith PeanoNat.
From Stdlib Require Import Permutation Sorted.
Import ListNotations.

Open Scope string_scope.
Open Scope list_scope.
Open Scope Z_scope.

Set Implicit Arguments.

(** ** Exceptions and the error monad *)

Inductive exn : Type :=
| IndexError
| KeyError
| ValueError
| ClientError (msg : string).

Inductive result (A : Type) : Type :=
| Ok (a : A)
| Raise (e : exn).

Arguments Ok {A} a.
Arguments Raise {A} e.

Definition bind {A B} (m : result A) (k : A -> result B) : result B :=
  match m with
  | Ok a => k a
  | Raise e => Raise e
  end.

Notation "x <- m ;; k" := (bind m (fun x => k))
  (at level 61, m at next level, right associativity).

Notation "' p <- m ;; k" := (bind m (fun p => k))
  (at level 61, p pattern, m at next level, right associativity).

(** A list comprehension whose body may raise: elements are evaluated from
    left to right and the first exception aborts the comprehension. *)
Fixpoint mapM {A B} (f : A -> result B) (l : list A) : result (list B) :=
  match l with
  | [] => Ok []
  | x :: t => y <- f x ;; ys <- mapM f t ;; Ok (y :: ys)
  end.

(** ** Equality and order on column values *)

Class Eqb (A : Type) : Type := {
  eqb : A -> A -> bool;
  eqb_spec : forall x y, reflect (x = y) (eqb x y)
}.

#[global] Instance Eqb_string : Eqb string :=
  {| eqb := String.eqb; eqb_spec := String.eqb_spec |}.

#[global] Instance Eqb_Z : Eqb Z :=
  {| eqb := Z.eqb; eqb_spec := Z.eqb_spec |}.

Definition prod_eqb {A B} `{Eqb A} `{Eqb B} (p q : A * B) : bool :=
  eqb (fst p) (fst q) && eqb (snd p) (snd q).

Lemma prod_eqb_spec {A B} `{Eqb A} `{Eqb B} (p q : A * B) :
  reflect (p = q) (prod_eqb p q).
Proof.
  destruct p as [a b], q as [c d]; unfold prod_eqb; simpl.
  destruct (eqb_spec a c), (eqb_spec b d); simpl; constructor; congruence.
Qed.

#[global] Instance Eqb_prod {A B} `{Eqb A} `{Eqb B} : Eqb (A * B) :=
  {| eqb := prod_eqb; eqb_spec := prod_eqb_spec |}.

(** The order in which pandas and NumPy sort keys ([sort=True] of [groupby],
    [np.unique] inside the encoder): strings by code point, numbers by value,
    tuples lexicographically. *)
Class Ord (A : Type) : Type := { leb : A -> A -> bool }.

#[global] Instance Ord_string : Ord string := {| leb := String.leb |}.
#[global] Instance Ord_Z : Ord Z := {| leb := Z.leb |}.
#[global] Instance Ord_prod {A B} `{Eqb A} `{Ord A} `{Ord B} : Ord (A * B) :=
  {| leb := fun p q =>
       if eqb (fst p) (fst q) then leb (snd p) (snd q) else leb (fst p) (fst q) |}.

(** ** Python slices *)

(** [l[:stop]], with Python's treatment of a negative or too large [stop]. *)
Definition slice_to {A} (stop : Z) (l : list A) : list A :=
  let len := Z.of_nat (length l) in
  let stop' := if stop <? 0 then Z.max (stop + len) 0 else Z.min stop len in
  firstn (Z.to_nat stop') l.

(** [l[:stop:-1]]: the elements from the last one down to, and excluding,
    index [stop] (adjusted as CPython's [PySlice_AdjustIndices] does for a
    negative step). *)
Definition slice_rev_to {A} (stop : Z) (l : list A) : list A :=
  let len := Z.of_nat (length l) in
  let stop' := if stop <? 0 then Z.max (stop + len) (-1) else Z.min stop (len - 1) in
  let start := len - 1 in
  firstn (Z.to_nat (start - stop')) (rev l).

(** ** pandas and NumPy primitives *)

(** [Series.unique()]: the distinct values in order of first appearance. *)
Fixpoint unique {A} `{Eqb A} (l : list A) : list A :=
  match l with
  | [] => []
  | x :: t => x :: filter (fun y => negb (eqb x y)) (unique t)
  end.

(** [Series.nunique()] on a column without missing values. *)
Definition nunique {A} `{Eqb A} (l : list A) : nat := length (unique l).

Definition count {A} `{Eqb A} (v : A) (l : list A) : nat :=
  length (filter (eqb v) l).

Fixpoint insert_sorted {A} `{Ord A} (x : A) (l : list A) : list A :=
  match l with
  | [] => [x]
  | y :: t => if leb x y then x :: l else y :: insert_sorted x t
  end.

(** Sorted keys, as [groupby(..., sort=True)] and [np.unique] order them. *)
Definition sort_keys {A} `{Ord A} (l : list A) : list A :=
  fold_right insert_sorted [] l.

(** The sorted distinct values of a column. *)
Definition np_unique {A} `{Eqb A} `{Ord A} (l : list A) : list A :=
  sort_keys (unique l).

(** Positional selection [s.iloc[idx]] with an indexer the library itself
    produced; positions outside the frame select nothing. *)
Definition take {A} (s : list A) (idx : list nat) : list A :=
  flat_map (fun i => match nth_error s i with Some x => [x] | None => [] end) idx.

(** [s[0]] / [index[0]]: the first element, [IndexError] on an empty one. *)
Definition first {A} (l : list A) : result A :=
  match l with
  | [] => Raise IndexError
  | x :: _ => Ok x
  end.

(** Label lookup [series[key]] in a series kept as an association list. *)
Fixpoint getitem {K V} `{Eqb K} (s : list (K * V)) (key : K) : result V :=
  match s with
  | [] => Raise KeyError
  | (k, v) :: t => if eqb k key then Ok v else getitem t key
  end.

Section Sorting.

(** [ndarray.argsort()] with NumPy's default kind: the positions of the
    values in ascending order.  The default kind is not stable, so the
    relative order of equal values is left to the parameter. *)
Variable argsort : list Z -> list nat.

(** pandas' [nargsort(values, ascending=False)]: argsort the reversed
    values, map the positions back and reverse the indexer. *)
Definition nargsort_desc (values : list Z) : list nat :=
  let n := length values in
  rev (map (fun j => (n - 1 - j)%nat) (argsort (rev values))).

(** [Series.sort_values(ascending=False)] on a series of (label, value). *)
Definition sort_values_desc {A} (s : list (A * Z)) : list (A * Z) :=
  take s (nargsort_desc (map snd s)).

(** [Series.value_counts()]: the distinct values with their number of
    occurrences, most frequent first. *)
Definition value_counts {A} `{Eqb A} (l : list A) : list (A * Z) :=
  sort_values_desc (map (fun v => (v, Z.of_nat (count v l))) (unique l)).

(** [x.value_counts().index[0]]: a most frequent value. *)
Definition most_common {A} `{Eqb A} (l : list A) : result A :=
  first (map fst (value_counts l)).

End Sorting.

(** ** The transaction frame

    The columns of [data/online_retail_preprocessed.csv] that
    [get_recommendations] reads.  The frame is preprocessed: no cell is
    missing.  Unit prices are decimal amounts, kept as a number of minimal
    currency units; only their equality and order matter below. *)

Record row : Type := {
  StockCode : string;
  Description : string;
  CustomerID : Z;
  Country : string;
  UnitPrice : Z
}.

Definition DataFrame : Type := list row.

(** ** One-hot encoder ([OneHotEncoder(handle_unknown="ignore")]) *)

Record OneHotEncoder : Type := {
  categories_StockCode : list string;
  categories_CustomerID : list Z;
  categories_Country : list string
}.

(** [enc.fit(df[onehot_cols])]: the sorted distinct values of each column.
    scikit-learn validates every column with [check_array], which refuses a
    column of zero samples. *)
Definition enc_fit (X : DataFrame) : result OneHotEncoder :=
  match X with
  | [] => Raise ValueError
  | _ => Ok {| categories_StockCode := np_unique (map StockCode X);
               categories_CustomerID := np_unique (map CustomerID X);
               categories_Country := np_unique (map Country X) |}
  end.

(** The block of indicator columns of one feature: column [c] is 1 exactly
    when the value is category [c].  With [handle_unknown="ignore"] a value
    that is no category sets no column. *)
Definition onehot {A} `{Eqb A} (cats : list A) (v : A) : list Z :=
  map (fun c => if eqb c v then 1 else 0) cats.

Definition onehot_row (enc : OneHotEncoder) (r : row) : list Z :=
  onehot (categories_StockCode enc) (StockCode r)
  ++ onehot (categories_CustomerID enc) (CustomerID r)
  ++ onehot (categories_Country enc) (Country r).

(** [enc.transform(X)]; [check_array] again refuses zero samples. *)
Definition enc_transform (enc : OneHotEncoder) (X : DataFrame)
  : result (list (list Z)) :=
  match X with
  | [] => Raise ValueError
  | _ => Ok (map (onehot_row enc) X)
  end.

(** [np.argmax]: the position of the first maximum. *)
Fixpoint argmax (l : list Z) : nat :=
  match l with
  | [] => O
  | x :: t =>
      match t with
      | [] => O
      | _ => let j := argmax t in if nth j t 0 <=? x then O else S j
      end
  end.

Definition row_sum (l : list Z) : Z := fold_right Z.add 0 l.

(** One feature of [inverse_transform]: the category of the first maximal
    column, replaced by [None] when the block sums to zero. *)
Definition inverse_block {A} (cats : list A) (block : list Z) : option A :=
  if row_sum block =? 0 then None else nth_error cats (argmax block).

Definition n_features_out (enc : OneHotEncoder) : nat :=
  (length (categories_StockCode enc) + length (categories_CustomerID enc)
   + length (categories_Country enc))%nat.

Definition inverse_row (enc : OneHotEncoder) (r : list Z)
  : option string * option Z * option string :=
  let n1 := length (categories_StockCode enc) in
  let n2 := length (categories_CustomerID enc) in
  (inverse_block (categories_StockCode enc) (firstn n1 r),
   inverse_block (categories_CustomerID enc) (firstn n2 (skipn n1 r)),
   inverse_block (categories_Country enc) (skipn (n1 + n2) r)).

(** [enc.inverse_transform(M)]: a matrix of the wrong width is refused. *)
Definition enc_inverse_transform (enc : OneHotEncoder) (M : list (list Z))
  : result (list (option string * option Z * option string)) :=
  if forallb (fun r => (length r =? n_features_out enc)%nat) M
  then Ok (map (inverse_row enc) M)
  else Raise ValueError.

(** ** Matrices *)

(** [scipy.sparse.hstack] of three blocks: the blocks must agree on the
    number of rows. *)
Definition hstack {F} (a b c : list (list F)) : result (list (list F)) :=
  if ((length a =? length b) && (length b =? length c))%nat
  then Ok (map (fun abc => fst (fst abc) ++ snd (fst abc) ++ snd abc)
               (combine (combine a b) c))
  else Raise ValueError.

(** [np.take_along_axis(items, index_array, axis=0)] on one-dimensional
    arrays: [items[index_array]], [IndexError] on a position out of bounds. *)
Definition take_along_axis {A} (items : list A) (index_array : list nat)
  : result (list A) :=
  mapM (fun i => match nth_error items i with
                 | Some x => Ok x
                 | None => Raise IndexError
                 end) index_array.

(** ** [get_recommendations] *)

Section Recommender.

Variable argsort : list Z -> list nat.

(** Entries of the feature matrix (floating-point numbers in the notebook),
    with the conversions of the indicator columns and of the unit price
    (cast to [float32] by [csr_matrix(..., dtype="float32")]). *)
Variable F : Type.
Variable F_of_indicator : Z -> F.
Variable F_of_price : Z -> F.

(** [TfidfVectorizer(min_df=2)]: [fit] raises when no term survives the
    pruning; the weights are floating-point and stay abstract. *)
Variable Vectorizer : Type.
Variable vectorizer_fit : list string -> result Vectorizer.
Variable vectorizer_transform : Vectorizer -> list string -> result (list (list F)).

(** *** Candidate selection *)

Definition group_key (r : row) : string * Z := (StockCode r, UnitPrice r).

(** The groups of [df.groupby(["StockCode", "UnitPrice"])], keys sorted. *)
Definition group_keys (df : DataFrame) : list (string * Z) :=
  np_unique (map group_key df).

Definition group_rows (df : DataFrame) (k : string * Z) : DataFrame :=
  filter (fun r => eqb (group_key r) k) df.

(** [.nunique()["CustomerID"]]: distinct customers of each group. *)
Definition customers_per_group (df : DataFrame) : list ((string * Z) * Z) :=
  map (fun k => (k, Z.of_nat (nunique (map CustomerID (group_rows df k)))))
      (group_keys df).

Definition popular_items (df : DataFrame) : list ((string * Z) * Z) :=
  sort_values_desc argsort (customers_per_group df).

Definition top_n_items (df : DataFrame) (n_ranks : Z) : list string :=
  slice_to n_ranks (map (fun g => fst (fst g)) (popular_items df)).

Definition top_n_prices (df : DataFrame) (n_ranks : Z) : list Z :=
  slice_to n_ranks (map (fun g => snd (fst g)) (popular_items df)).

(** *** The inference frame *)

Definition stock_rows (df : DataFrame) (code : string) : DataFrame :=
  filter (fun r => eqb (StockCode r) code) df.

(** [df.groupby("StockCode").agg(lambda x: x.value_counts().index[0])
    ["Description"]]: the most common description of every stock code. *)
Definition item_map (df : DataFrame) : result (list (string * string)) :=
  mapM (fun code =>
          d <- most_common argsort (map Description (stock_rows df code)) ;;
          Ok (code, d))
       (np_unique (map StockCode df)).

(** [df.loc[df["CustomerID"] == customer_id]["Country"]
    .value_counts().index[0]]. *)
Definition customer_country (df : DataFrame) (customer_id : Z) : result string :=
  most_common argsort
    (map Country (filter (fun r => eqb (CustomerID r) customer_id) df)).

(** [pd.DataFrame(data)]: array columns of one length, scalars repeated. *)
Definition inference_frame (items descriptions : list string) (customer_id : Z)
  (country : string) (prices : list Z) : result DataFrame :=
  if ((length items =? length descriptions)
      && (length descriptions =? length prices))%nat
  then Ok (map (fun idp =>
                  {| StockCode := fst (fst idp);
                     Description := snd (fst idp);
                     CustomerID := customer_id;
                     Country := country;
                     UnitPrice := snd idp |})
               (combine (combine items descriptions) prices))
  else Raise ValueError.

(** [csr_matrix((prices, (row, col)), dtype="float32")]: one column; SciPy
    cannot infer a shape from empty index arrays. *)
Definition unit_price_column (prices : list Z) : result (list (list F)) :=
  match prices with
  | [] => Raise ValueError
  | _ => Ok (map (fun p => [F_of_price p]) prices)
  end.

(** What the encoding step leaves for the ranking step. *)
Record Encoded : Type := {
  enc_item_map : list (string * string);
  enc_inference : DataFrame;
  enc_encoder : OneHotEncoder;
  enc_onehot_output : list (list Z);
  enc_X_inference : list (list F)
}.

(** The body of [get_recommendations] up to the call of the endpoint. *)
Definition encode_candidates (df : DataFrame) (customer_id : Z) (n_ranks : Z)
  : result Encoded :=
  let items := top_n_items df n_ranks in
  let prices := top_n_prices df n_ranks in
  imap <- item_map df ;;
  country <- customer_country df customer_id ;;
  descriptions <- mapM (getitem imap) items ;;
  df_inference <- inference_frame items descriptions customer_id country prices ;;
  enc <- enc_fit df ;;
  onehot_output <- enc_transform enc df_inference ;;
  vectorizer <- vectorizer_fit (unique (map Description df)) ;;
  tfidf_output <- vectorizer_transform vectorizer (map Description df_inference) ;;
  unit_price <- unit_price_column (map UnitPrice df_inference) ;;
  X_inference <- hstack (map (map F_of_indicator) onehot_output)
                        tfidf_output unit_price ;;
  Ok {| enc_item_map := imap;
        enc_inference := df_inference;
        enc_encoder := enc;
        enc_onehot_output := onehot_output;
        enc_X_inference := X_inference |}.

(** *** Ranking *)

(** [[i, item_map[i]]] for an entry of [inverse_transform]'s output; the
    label [None] is no key of [item_map]. *)
Definition recommendation (imap : list (string * string)) (i : option string)
  : result (string * string) :=
  match i with
  | Some code => d <- getitem imap code ;; Ok (code, d)
  | None => Raise KeyError
  end.

(** The body of [get_recommendations] after the endpoint answered with the
    scores [preds]. *)
Definition rank_candidates (st : Encoded) (preds : list Z) (n_recommendations : Z)
  : result (list (string * string)) :=
  let index_array := argsort preds in
  inverse <- enc_inverse_transform (enc_encoder st) (enc_onehot_output st) ;;
  let items := map (fun t => fst (fst t)) inverse in
  taken <- take_along_axis items index_array ;;
  let top_recs := slice_rev_to (- n_recommendations - 1) taken in
  mapM (recommendation (enc_item_map st)) top_recs.

(** The scoring endpoint: [fm_predictor.predict] followed by the extraction
    of the ["score"] of every prediction.  Scores are compared only, so any
    order-preserving image of the finite floats serves. *)
Definition Predictor : Type := list (list F) -> result (list Z).

Definition get_recommendations (predict : Predictor) (df : DataFrame)
  (customer_id : Z) (n_recommendations : Z) (n_ranks : Z)
  : result (list (string * string)) :=
  st <- encode_candidates df customer_id n_ranks ;;
  preds <- predict (enc_X_inference st) ;;
  rank_candidates st preds n_recommendations.

End Recommender.

(** ** Reference instances of the parameters *)

(** A stable insertion argsort: one admissible [ndarray.argsort]. *)
Fixpoint insert_index (values : list Z) (i : nat) (idx : list nat) : list nat :=
  match idx with
  | [] => [i]
  | j :: t =>
      if nth i values 0 <? nth j values 0 then i :: idx
      else j :: insert_index values i t
  end.

Definition stable_argsort (values : list Z) : list nat :=
  fold_left (fun idx i => insert_index values i idx)
            (seq 0 (length values)) [].

(** A vectoriser whose vocabulary is the fitted corpus itself, every
    description being one term. *)
Definition whole_description_fit (corpus : list string) : result (list string) :=
  match corpus with
  | [] => Raise ValueError
  | _ => Ok corpus
  end.

Definition whole_description_transform (vocabulary docs : list string)
  : result (list (list Z)) :=
  Ok (map (onehot vocabulary) docs).

(** An endpoint scoring a row by its last entry, the unit price. *)
Definition price_score : list (list Z) -> result (list Z) :=
  fun X => Ok (map (fun r => last r 0) X).

(** ** Predicates of the statements *)

(** What NumPy promises of [argsort] whatever the kind: a permutation of the
    positions that puts the values in ascending order. *)
Definition argsort_spec (argsort : list Z -> list nat) : Prop :=
  forall values,
    Permutation (argsort values) (seq 0 (length values))
    /\ StronglySorted (fun i j => nth i values 0 <= nth j values 0)
                      (argsort values).

Definition descending {A} (g h : A * Z) : Prop := snd h <= snd g.

(** [v] is a value of the column [l] that no other value outnumbers. *)
Definition most_frequent {A} `{Eqb A} (v : A) (l : list A) : Prop :=
  In v l /\ forall w, (count w l <= count v l)%nat.

(** The candidate at position [i] of the inference frame, paired with the
    description [item_map] holds for it. *)
Definition recommends {F} (st : Encoded F) (i : nat) (rec : string * string)
  : Prop :=
  exists r, nth_error (enc_inference st) i = Some r
            /\ fst rec = StockCode r
            /\ getitem (enc_item_map st) (StockCode r) = Ok (snd rec).

(** ** Sample frames and parameters *)

Definition mk_row (code description : string) (customer : Z) (country : string)
  (price : Z) : row :=
  {| StockCode := code; Description := description; CustomerID := customer;
     Country := country; UnitPrice := price |}.

Definition sample_df : DataFrame :=
  [ mk_row "A" "apple" 1 "UK" 10;
    mk_row "A" "apple pie" 2 "UK" 10;
    mk_row "A" "apple" 3 "FR" 12;
    mk_row "B" "bread" 1 "UK" 5;
    mk_row "B" "bread" 1 "FR" 5;
    mk_row "C" "cake" 2 "UK" 7;
    mk_row "C" "cake" 3 "UK" 7;
    mk_row "C" "cake" 1 "UK" 7 ].

Definition single_row_df : DataFrame := [ mk_row "A" "apple" 1 "UK" 10 ].

(** Item A is bought by three customers at three prices, item B by two
    customers at one price. *)
Definition split_price_df : DataFrame :=
  [ mk_row "A" "apple" 1 "UK" 10;
    mk_row "A" "apple" 2 "UK" 11;
    mk_row "A" "apple" 3 "UK" 12;
    mk_row "B" "bread" 4 "UK" 5;
    mk_row "B" "bread" 5 "UK" 5 ].

Definition sample_encode : DataFrame -> Z -> Z -> result (Encoded Z) :=
  encode_candidates stable_argsort (fun z => z) (fun z => z)
    whole_description_fit whole_description_transform.

Definition sample_recommend (predict : Predictor Z)
  : DataFrame -> Z -> Z -> Z -> result (list (string * string)) :=
  get_recommendations stable_argsort (fun z => z) (fun z => z)
    whole_description_fit whole_description_transform predict.


Definition sample_encoder : OneHotEncoder :=
  {| categories_StockCode := ["A"; "B"; "C"];
     categories_CustomerID := [1; 2; 3];
     categories_Country := ["FR"; "UK"] |}.

(** A row none of whose category values occurs in [sample_df]. *)
Definition unseen_row : row := mk_row "Z" "zebra" 9 "DE" 3.

(** * The model-package status polling loop (cell 36) *)

Module ModelPackagePolling.

(** What the cell does to the outside world. *)
Inductive event : Type :=
| Describe
| Sleep (seconds : Z)
| Print (line : string).

Record state : Type := {
  mp_status : string;
  calls : nat;
  trace : list event
}.

(** How a run of the loop ends: it leaves the [while], an exception of the
    service client propagates, or it is still polling when the fuel that
    bounds the run is used up. *)
Inductive outcome : Type :=
| Exited (st : state)
| Raised (e : exn) (st : state)
| Polling (st : state).

(** [mp_status in ["Completed", "Failed"]]. *)
Definition terminal (status : string) : bool :=
  existsb (String.eqb status) ["Completed"; "Failed"].

Definition status_line (status : string) : string :=
  String.append "model package status: " status.

(** [time.sleep(5)], then the next call. *)
Definition sleep_and_call (st : state) : state :=
  {| mp_status := mp_status st;
     calls := S (calls st);
     trace := trace st ++ [Sleep 5; Describe] |}.

(** The assignment of the answer to [mp_status] and the [print]. *)
Definition observe (st : state) (status : string) : state :=
  {| mp_status := status;
     calls := calls st;
     trace := trace st ++ [Print (status_line status)] |}.

Section Loop.

(** The answer to the [k]-th call of
    [describe_model_package(...)["ModelPackageStatus"]]: a status, or the
    exception the client raised. *)
Variable describe_model_package : nat -> result string.

(** [while mp_status not in ["Completed", "Failed"]: ...]. *)
Fixpoint loop (fuel : nat) (st : state) : outcome :=
  if terminal (mp_status st) then Exited st
  else
    match fuel with
    | O => Polling st
    | S fuel' =>
        match describe_model_package (calls st) with
        | Raise e => Raised e (sleep_and_call st)
        | Ok status => loop fuel' (observe (sleep_and_call st) status)
        end
    end.

(** The whole cell: a first call, the loop, the final [print]. *)
Definition cell (fuel : nat) : outcome :=
  match describe_model_package O with
  | Raise e => Raised e {| mp_status := ""; calls := 1; trace := [Describe] |}
  | Ok status =>
      match loop fuel {| mp_status := status; calls := 1; trace := [Describe] |} with
      | Exited st => Exited (observe st (mp_status st))
      | other => other
      end
  end.

(** The status the loop holds is the answer to the latest call. *)
Definition last_observed (st : state) : Prop :=
  exists k, calls st = S k /\ describe_model_package k = Ok (mp_status st).

End Loop.

(** A service that answers ["InProgress"] twice and then ["Completed"]. *)
Definition two_pending_then_completed (k : nat) : result string :=
  if (k <? 2)%nat then Ok "InProgress" else Ok "Completed".

(** The state after the first call was answered ["InProgress"]. *)
Definition pending_state : state :=
  {| mp_status := "InProgress"; calls := 1; trace := [Describe] |}.

End ModelPackagePolling.

(** * The artifact association loop (cell 23) *)

Module ArtifactAssociation.

Record Artifact : Type := {
  artifact_arn : string;
  artifact_type : string
}.

(** One call of [association.Association.create]: source, destination and
    association type. *)
Record request : Type := {
  source_arn : string;
  destination_arn : string;
  association_type : string
}.

Definition success_line (art : Artifact) : string :=
  String.append "Association with "
    (String.append (artifact_type art) ": SUCCEESFUL").

Definition exists_line (art : Artifact) : string :=
  String.append "Association already exists with " (artifact_type art).

(** [artifact_list] of the cell. *)
Definition artifact_list (training_data_artifact model_artifact : Artifact)
  : list (Artifact * string) :=
  [(training_data_artifact, "ContributedTo"); (model_artifact, "Produced")].

Section Loop.

(** The lineage store of the service.  A call of [create] leaves a store
    behind and either returns or raises. *)
Variable Store : Type.
Variable create : Store -> request -> Store * option exn.
Variable trial_component_arn : string.

Record state : Type := {
  store : Store;
  requests : list request;
  stdout : list string
}.

(** Statements: state transformers that return a value or raise. *)
Definition M (A : Type) : Type := state -> state * result A.

Definition ret {A} (a : A) : M A := fun st => (st, Ok a).

Definition and_then {A B} (m : M A) (k : A -> M B) : M B :=
  fun st =>
    match m st with
    | (st', Ok a) => k a st'
    | (st', Raise e) => (st', Raise e)
    end.

(** [try: body except: handler], the bare [except] catching everything. *)
Definition try_except {A} (body : M A) (handler : M A) : M A :=
  fun st =>
    match body st with
    | (st', Ok a) => (st', Ok a)
    | (st', Raise _) => handler st'
    end.

Definition print (line : string) : M unit :=
  fun st => ({| store := store st; requests := requests st;
                stdout := stdout st ++ [line] |}, Ok tt).

Definition association_create (rq : request) : M unit :=
  fun st =>
    let (store', failure) := create (store st) rq in
    let st' := {| store := store'; requests := requests st ++ [rq];
                  stdout := stdout st |} in
    match failure with
    | None => (st', Ok tt)
    | Some e => (st', Raise e)
    end.

Definition request_of (entry : Artifact * string) : request :=
  {| source_arn := artifact_arn (fst entry);
     destination_arn := trial_component_arn;
     association_type := snd entry |}.

(** The body of the [for]: the [try] statement. *)
Definition associate (entry : Artifact * string) : M unit :=
  try_except
    (and_then (association_create (request_of entry))
         (fun _ => print (success_line (fst entry))))
    (print (exists_line (fst entry))).

(** [for art, assoc in artifact_list: ...]. *)
Fixpoint for_each (artifact_list : list (Artifact * string)) : M unit :=
  match artifact_list with
  | [] => ret tt
  | entry :: rest => and_then (associate entry) (fun _ => for_each rest)
  end.

(** The line one iteration prints, given the store it starts from. *)
Definition line_of (st : state) (entry : Artifact * string) : string :=
  match snd (create (store st) (request_of entry)) with
  | None => success_line (fst entry)
  | Some _ => exists_line (fst entry)
  end.

End Loop.

(** The run recorded in the notebook: the first association exists already,
    the second one is created. *)
Definition recorded_create (known : list string) (rq : request)
  : list string * option exn :=
  if existsb (String.eqb (source_arn rq)) known
  then (known, Some (ClientError "ValidationException"))
  else (source_arn rq :: known, None).

Definition recorded_training : Artifact :=
  {| artifact_arn := "arn:data"; artifact_type := "DataSet" |}.

Definition recorded_model : Artifact :=
  {| artifact_arn := "arn:model"; artifact_type := "Model" |}.

Definition recorded_start : state (list string) :=
  {| store := ["arn:data"]; requests := []; stdout := [] |}.

End ArtifactAssociation.

(** ** Frames and scores without ties *)



(** A second admissible [argsort]: among equal values the later position
    comes first. *)
Fixpoint insert_index_before (values : list Z) (i : nat) (idx : list nat)
  : list nat :=
  match idx with
  | [] => [i]
  | j :: t =>
      if nth i values 0 <=? nth j values 0 then i :: idx
      else j :: insert_index_before values i t
  end.

Definition unstable_argsort (values : list Z) : list nat :=
  fold_left (fun idx i => insert_index_before values i idx)
            (seq 0 (length values)) [].

(** A frame whose groups, descriptions and countries are counted without
    ties. *)
Definition tie_free_df : DataFrame :=
  [ mk_row "C" "cake" 1 "UK" 7;
    mk_row "C" "cake" 2 "UK" 7;
    mk_row "C" "cake" 3 "FR" 7;
    mk_row "A" "apple" 1 "UK" 10;
    mk_row "A" "apple" 2 "UK" 10;
    mk_row "B" "bread" 1 "FR" 5 ].

(** * Further cells of the notebook *)

(** ** The top customer and the call of cell 44 (cells 42 and 44) *)

(** A line of [data/online_retail_preprocessed.csv] with the quantity sold,
    a column [get_recommendations] does not read. *)
Record transaction : Type := {
  sold : row;
  Quantity : Z
}.

Definition customer_of (t : transaction) : Z := CustomerID (sold t).

Definition customer_lines (tx : list transaction) (c : Z) : list transaction :=
  filter (fun t => eqb (customer_of t) c) tx.

Section TopCustomer.

Variable argsort : list Z -> list nat.

(** The arithmetic of the frame's columns.  pandas multiplies and sums in
    the dtype of the columns (int64, which wraps around, or float64, which
    rounds); the results are compared only, so they are kept as their image
    under an order-preserving map into the integers. *)
Variable times : Z -> Z -> Z.
Variable column_sum : list Z -> Z.

(** What the cell raises on a frame without rows: [KeyError] with pandas 1.x
    (the sum of an empty frame has no ["invoice_amount"] column),
    [IndexError] with pandas 2.x ([index[0]] of an empty index). *)
Variable no_rows_error : exn.

(** [df["invoice_amount"] = df["Quantity"] * df["UnitPrice"]]. *)
Definition invoice_amount (t : transaction) : Z :=
  times (Quantity t) (UnitPrice (sold t)).

(** [df.groupby("CustomerID").sum()["invoice_amount"]]: the customers in
    ascending order, each with the sum of its invoice amounts. *)
Definition amount_per_customer (tx : list transaction) : list (Z * Z) :=
  map (fun c => (c, column_sum (map invoice_amount (customer_lines tx c))))
      (np_unique (map customer_of tx)).

(** [... .sort_values(ascending=False).index[0]]. *)
Definition top_customer (tx : list transaction) : result Z :=
  match tx with
  | [] => Raise no_rows_error
  | _ => first (map fst (sort_values_desc argsort (amount_per_customer tx)))
  end.

Variable F : Type.
Variable F_of_indicator : Z -> F.
Variable F_of_price : Z -> F.
Variable Vectorizer : Type.
Variable vectorizer_fit : list string -> result Vectorizer.
Variable vectorizer_transform : Vectorizer -> list string -> result (list (list F)).

(** Cells 42 and 44 in sequence:
    [get_recommendations(df, top_customer, n_recommendations=5, n_ranks=100)]. *)
Definition top_customer_recommendations (predict : Predictor F)
  (tx : list transaction) : result (list (string * string)) :=
  customer <- top_customer tx ;;
  get_recommendations argsort F_of_indicator F_of_price
    vectorizer_fit vectorizer_transform predict (map sold tx) customer 5 100.

End TopCustomer.

(** ** The metrics report (cell 29) *)

Module TrainingMetrics.

(** An entry of [training_job_info["FinalMetricDataList"]]. *)
Record metric (V : Type) : Type := {
  MetricName : string;
  Value : V
}.

Arguments MetricName {V} m.
Arguments Value {V} m.

(** [d.update({key: value})] on a dict kept in insertion order: a present
    key keeps its place and takes the new value, a new key goes last. *)
Fixpoint dict_update {V} (d : list (string * V)) (key : string) (value : V)
  : list (string * V) :=
  match d with
  | [] => [(key, value)]
  | (k, v) :: t =>
      if eqb k key then (k, value) :: t else (k, v) :: dict_update t key value
  end.

(** [model_metrics_report["regression_metrics"]] after the [for] loop; the
    one-key dict [{"value": v}] stored under a name is kept as [v]. *)
Definition regression_metrics {V} (FinalMetricDataList : list (metric V))
  : list (string * V) :=
  fold_left (fun report m => dict_update report (MetricName m) (Value m))
            FinalMetricDataList [].

(** A metric list in which a name occurs twice. *)
Definition sample_metrics : list (metric Z) :=
  [ {| MetricName := "train:rmse"; Value := 10 |};
    {| MetricName := "test:rmse"; Value := 12 |};
    {| MetricName := "train:rmse"; Value := 9 |} ].

End TrainingMetrics.

(** ** What a run of the polling cell costs *)

Module ModelPackagePollingTrace.

Import ModelPackagePolling.

(** The seconds slept along a trace. *)
Fixpoint slept (tr : list event) : Z :=
  match tr with
  | [] => 0
  | Sleep seconds :: t => seconds + slept t
  | _ :: t => slept t
  end.

(** The calls of the service along a trace. *)
Fixpoint described (tr : list event) : nat :=
  match tr with
  | [] => O
  | Describe :: t => S (described t)
  | _ :: t => described t
  end.

(** The state a run ends in, however it ends. *)
Definition final (o : outcome) : state :=
  match o with
  | Exited st | Raised _ st | Polling st => st
  end.

(** A service that answers ["InProgress"] once and then fails. *)
Definition pending_then_throttled (k : nat) : result string :=
  if (k <? 1)%nat then Ok "InProgress" else Raise (ClientError "Throttling").

End ModelPackagePollingTrace.

(** ** Sample retail lines *)

Definition sample_tx : list transaction :=
  [ {| sold := mk_row "A" "apple" 1 "UK" 10; Quantity := 3 |};
    {| sold := mk_row "A" "apple pie" 2 "UK" 10; Quantity := 1 |};
    {| sold := mk_row "A" "apple" 3 "FR" 12; Quantity := 2 |};
    {| sold := mk_row "B" "bread" 1 "UK" 5; Quantity := 4 |};
    {| sold := mk_row "B" "bread" 1 "FR" 5; Quantity := -1 |};
    {| sold := mk_row "C" "cake" 2 "UK" 7; Quantity := 1 |};
    {| sold := mk_row "C" "cake" 3 "UK" 7; Quantity := 1 |};
    {| sold := mk_row "C" "cake" 1 "UK" 7; Quantity := 2 |} ].





(** An endpoint that answers one score too many. *)
Definition one_score_too_many : list (list Z) -> result (list Z) :=
  fun X => Ok (0 :: map (fun r => last r 0) X).

(** * Properties *)

(** ** The error monad *)

Lemma bind_Ok_inv {A B} (m : result A) (k : A -> result B) (b : B) :
  bind m k = Ok b -> exists a, m = Ok a /\ k a = Ok b.
Proof.
  destruct m as [a | e]; simpl; intros Hk; [eauto | discriminate].
Qed.

Ltac inv_bind H :=
  let x := fresh "x" in
  let Hx := fresh "Hx" in
  apply bind_Ok_inv in H; destruct H as (x & Hx & H).

Lemma mapM_Ok_Forall2 {A B} (f : A -> result B) (l : list A) (out : list B) :
  mapM f l = Ok out -> Forall2 (fun x y => f x = Ok y) l out.
Proof.
  revert out; induction l as [| x t IH]; simpl; intros out Hm.
  - injection Hm as <-; constructor.
  - inv_bind Hm. inv_bind Hm. injection Hm as <-.
    constructor; auto.
Qed.

Lemma mapM_Ok_length {A B} (f : A -> result B) (l : list A) (out : list B) :
  mapM f l = Ok out -> length out = length l.
Proof.
  intros Hm; apply mapM_Ok_Forall2 in Hm.
  induction Hm; simpl; congruence.
Qed.

(** ** Lists, selections and slices *)

Lemma eqb_refl {A} `{Eqb A} (x : A) : eqb x x = true.
Proof. destruct (eqb_spec x x); congruence. Qed.

Lemma eqb_eq {A} `{Eqb A} (x y : A) : eqb x y = true <-> x = y.
Proof. destruct (eqb_spec x y); split; congruence. Qed.

Lemma In_unique {A} `{Eqb A} (x : A) (l : list A) : In x (unique l) <-> In x l.
Proof.
  induction l as [| y t IH]; simpl; [tauto |].
  rewrite filter_In, IH.
  destruct (eqb_spec y x) as [-> | Hne]; simpl; intuition congruence.
Qed.

Lemma NoDup_unique {A} `{Eqb A} (l : list A) : NoDup (unique l).
Proof.
  induction l as [| y t IH]; simpl; constructor.
  - rewrite filter_In, eqb_refl; simpl; intuition discriminate.
  - now apply NoDup_filter.
Qed.

Lemma insert_sorted_perm {A} `{Ord A} (x : A) (l : list A) :
  Permutation (insert_sorted x l) (x :: l).
Proof.
  induction l as [| y t IH]; simpl; [reflexivity |].
  destruct (leb x y); [reflexivity |].
  rewrite IH; apply perm_swap.
Qed.

Lemma sort_keys_perm {A} `{Ord A} (l : list A) : Permutation (sort_keys l) l.
Proof.
  induction l as [| x t IH]; simpl; [reflexivity |].
  rewrite insert_sorted_perm; now constructor.
Qed.

Lemma In_np_unique {A} `{Eqb A} `{Ord A} (x : A) (l : list A) :
  In x (np_unique l) <-> In x l.
Proof.
  unfold np_unique; rewrite <- (In_unique x l).
  split; apply Permutation_in;
    [apply sort_keys_perm | symmetry; apply sort_keys_perm].
Qed.

Lemma NoDup_np_unique {A} `{Eqb A} `{Ord A} (l : list A) : NoDup (np_unique l).
Proof.
  unfold np_unique.
  eapply Permutation_NoDup; [symmetry; apply sort_keys_perm | apply NoDup_unique].
Qed.

Lemma take_app_seq {A} (l1 l2 : list A) :
  take (l1 ++ l2) (seq (length l1) (length l2)) = l2.
Proof.
  revert l1; induction l2 as [| x t IH]; intros l1; simpl; [reflexivity |].
  rewrite nth_error_app2, Nat.sub_diag by lia; simpl.
  f_equal.
  specialize (IH (l1 ++ [x])).
  rewrite <- app_assoc, length_app, Nat.add_1_r in IH; exact IH.
Qed.

Lemma take_seq {A} (s : list A) : take s (seq 0 (length s)) = s.
Proof. exact (take_app_seq [] s). Qed.

Lemma take_perm {A} (s : list A) (idx : list nat) :
  Permutation idx (seq 0 (length s)) -> Permutation (take s idx) s.
Proof.
  intros Hp; rewrite <- (take_seq s) at 2.
  unfold take; now apply Permutation_flat_map.
Qed.

Lemma take_map_nth {A} (s : list (A * Z)) (idx : list nat) :
  Forall (fun i => (i < length s)%nat) idx ->
  map snd (take s idx) = map (fun i => nth i (map snd s) 0) idx.
Proof.
  induction 1 as [| i t Hi _ IH]; simpl; [reflexivity |].
  destruct (nth_error s i) as [x |] eqn:Hn.
  - simpl; rewrite IH; f_equal.
    erewrite nth_error_nth; [reflexivity |].
    now rewrite nth_error_map, Hn.
  - apply nth_error_None in Hn; lia.
Qed.

Lemma slice_to_map {A B} (f : A -> B) (n : Z) (l : list A) :
  slice_to n (map f l) = map f (slice_to n l).
Proof. unfold slice_to; now rewrite length_map, firstn_map. Qed.

Lemma slice_to_prefix {A} (n : Z) (l : list A) :
  exists rest, l = slice_to n l ++ rest.
Proof.
  unfold slice_to; eexists; symmetry; apply firstn_skipn.
Qed.

Lemma slice_to_length {A} (n : Z) (l : list A) :
  0 <= n -> length (slice_to n l) = Nat.min (Z.to_nat n) (length l).
Proof.
  intros Hn; unfold slice_to.
  destruct (Z.ltb_spec n 0); [lia |].
  rewrite length_firstn; lia.
Qed.

Lemma slice_rev_to_length {A} (n : Z) (l : list A) :
  0 <= n ->
  length (slice_rev_to (- n - 1) l) = Nat.min (Z.to_nat n) (length l).
Proof.
  intros Hn; unfold slice_rev_to.
  destruct (Z.ltb_spec (- n - 1) 0); [| lia].
  rewrite length_firstn, length_rev; lia.
Qed.

Lemma slice_rev_to_prefix {A} (stop : Z) (l : list A) :
  exists rest, rev l = slice_rev_to stop l ++ rest.
Proof.
  unfold slice_rev_to; eexists; symmetry; apply firstn_skipn.
Qed.

(** ** Strongly sorted lists *)

Lemma StronglySorted_map {A B} (R : B -> B -> Prop) (f : A -> B) (l : list A) :
  StronglySorted (fun x y => R (f x) (f y)) l <-> StronglySorted R (map f l).
Proof.
  induction l as [| x t IH]; simpl; split; intros Hs;
    try constructor; inversion Hs; subst.
  - now apply IH.
  - now rewrite Forall_map.
  - now apply IH.
  - now rewrite <- Forall_map.
Qed.

Lemma StronglySorted_app_iff {A} (R : A -> A -> Prop) (l1 l2 : list A) :
  StronglySorted R (l1 ++ l2) <->
  StronglySorted R l1 /\ StronglySorted R l2
  /\ (forall x y, In x l1 -> In y l2 -> R x y).
Proof.
  induction l1 as [| a t IH]; simpl.
  - split; [intros Hs | intros (_ & Hs & _); exact Hs].
    repeat split; [constructor | exact Hs | tauto].
  - split.
    + intros Hs; inversion Hs as [| ? ? Ht Ha]; subst.
      apply IH in Ht; destruct Ht as (H1 & H2 & H12).
      rewrite Forall_app in Ha; destruct Ha as [Ha1 Ha2].
      repeat split; [now constructor | exact H2 |].
      intros x y [<- | Hx] Hy; [| now apply H12].
      rewrite Forall_forall in Ha2; now apply Ha2.
    + intros (H1 & H2 & H12); inversion H1 as [| ? ? Ht Ha]; subst.
      constructor.
      * apply IH; repeat split; auto.
      * rewrite Forall_app; split; [exact Ha |].
        rewrite Forall_forall; intros y Hy; apply H12; auto.
Qed.

Lemma StronglySorted_rev {A} (R : A -> A -> Prop) (l : list A) :
  StronglySorted R l -> StronglySorted (fun x y => R y x) (rev l).
Proof.
  induction 1 as [| a t Ht IH Ha]; simpl; [constructor |].
  apply StronglySorted_app_iff; repeat split.
  - exact IH.
  - repeat constructor.
  - intros x y Hx [<- | []].
    rewrite Forall_forall in Ha; apply Ha; now apply in_rev.
Qed.

Lemma StronglySorted_weaken {A} (R R' : A -> A -> Prop) (l : list A) :
  (forall x y, In x l -> In y l -> R x y -> R' x y) ->
  StronglySorted R l -> StronglySorted R' l.
Proof.
  intros Hw Hs; induction Hs as [| a t Ht IH Ha]; constructor.
  - apply IH; intros x y Hx Hy; apply Hw; now right.
  - rewrite Forall_forall in *; intros y Hy.
    apply Hw; [now left | now right | now apply Ha].
Qed.

(** ** Sorting with an arbitrary admissible [argsort] *)

Lemma mirror_seq (n : nat) :
  map (fun j => (n - 1 - j)%nat) (seq 0 n) = rev (seq 0 n).
Proof.
  induction n as [| n IH]; [reflexivity |].
  rewrite seq_S at 2; rewrite rev_app_distr; simpl.
  rewrite <- seq_shift, map_map, <- IH.
  f_equal; [lia |].
  apply map_ext; intros j; lia.
Qed.

Section SortingFacts.

Variable argsort : list Z -> list nat.
Hypothesis argsort_ok : argsort_spec argsort.

Lemma argsort_perm (values : list Z) :
  Permutation (argsort values) (seq 0 (length values)).
Proof. apply argsort_ok. Qed.

Lemma argsort_bound (values : list Z) (i : nat) :
  In i (argsort values) <-> (i < length values)%nat.
Proof.
  split; intros Hi.
  - eapply Permutation_in in Hi; [| apply argsort_perm].
    apply in_seq in Hi; lia.
  - eapply Permutation_in; [symmetry; apply argsort_perm |].
    apply in_seq; lia.
Qed.

Lemma argsort_length (values : list Z) :
  length (argsort values) = length values.
Proof.
  rewrite (Permutation_length (argsort_perm values)); apply length_seq.
Qed.

Lemma argsort_NoDup (values : list Z) : NoDup (argsort values).
Proof.
  eapply Permutation_NoDup; [symmetry; apply argsort_perm | apply seq_NoDup].
Qed.

Lemma nargsort_desc_perm (values : list Z) :
  Permutation (nargsort_desc argsort values) (seq 0 (length values)).
Proof.
  unfold nargsort_desc.
  rewrite <- Permutation_rev.
  rewrite (Permutation_map _ (argsort_perm (rev values))).
  rewrite length_rev, mirror_seq.
  symmetry; apply Permutation_rev.
Qed.

Lemma nargsort_desc_sorted (values : list Z) :
  StronglySorted (fun i j => nth j values 0 <= nth i values 0)
                 (nargsort_desc argsort values).
Proof.
  unfold nargsort_desc.
  apply StronglySorted_rev with (R := fun i j => nth i values 0 <= nth j values 0).
  apply (proj1 (StronglySorted_map
                  (fun i j => nth i values 0 <= nth j values 0)
                  (fun j => (length values - 1 - j)%nat) _)).
  eapply StronglySorted_weaken; [| apply argsort_ok].
  intros i j Hi Hj Hle; cbv beta in Hle |- *.
  apply argsort_bound in Hi, Hj; rewrite length_rev in Hi, Hj.
  rewrite !rev_nth in Hle by assumption.
  replace (length values - 1 - i)%nat with (length values - S i)%nat by lia.
  replace (length values - 1 - j)%nat with (length values - S j)%nat by lia.
  exact Hle.
Qed.

Lemma sort_values_desc_perm {A} (s : list (A * Z)) :
  Permutation (sort_values_desc argsort s) s.
Proof.
  unfold sort_values_desc; apply take_perm.
  rewrite <- (length_map snd s); apply nargsort_desc_perm.
Qed.

Lemma sort_values_desc_sorted {A} (s : list (A * Z)) :
  StronglySorted descending (sort_values_desc argsort s).
Proof.
  unfold sort_values_desc, descending.
  apply (proj2 (StronglySorted_map (fun a b => b <= a) snd _)).
  rewrite take_map_nth.
  - apply (proj1 (StronglySorted_map (fun a b : Z => b <= a)
                    (fun i => nth i (map snd s) 0) _)).
    apply nargsort_desc_sorted.
  - rewrite Forall_forall; intros i Hi.
    eapply Permutation_in in Hi; [| apply nargsort_desc_perm].
    apply in_seq in Hi; rewrite length_map in Hi; lia.
Qed.

(** The head of a descending series carries a maximal value. *)
Lemma sort_values_desc_head {A} (s : list (A * Z)) (g : A * Z) (t : list (A * Z)) :
  sort_values_desc argsort s = g :: t ->
  In g s /\ forall h, In h s -> snd h <= snd g.
Proof.
  intros Hs.
  pose proof (sort_values_desc_perm s) as Hp.
  pose proof (sort_values_desc_sorted s) as Hd.
  rewrite Hs in Hp, Hd.
  split.
  - eapply Permutation_in; [exact Hp | now left].
  - intros h Hh.
    eapply Permutation_in in Hh; [| symmetry; exact Hp].
    inversion Hd as [| ? ? _ Hall]; subst.
    destruct Hh as [<- | Hh]; [lia |].
    rewrite Forall_forall in Hall; now apply Hall.
Qed.

Lemma count_pos_In {A} `{Eqb A} (v : A) (l : list A) :
  In v l <-> (0 < count v l)%nat.
Proof.
  unfold count; induction l as [| x t IH]; simpl; [lia |].
  destruct (eqb_spec v x) as [-> | Hne]; simpl.
  - split; [lia | now left].
  - rewrite <- IH; intuition congruence.
Qed.

(** [value_counts().index[0]] is a value of the column with a maximal number
    of occurrences. *)
Lemma most_common_spec {A} `{Eqb A} (l : list A) (v : A) :
  most_common argsort l = Ok v ->
  In v l /\ forall w, (count w l <= count v l)%nat.
Proof.
  unfold most_common, value_counts.
  set (s := map (fun v => (v, Z.of_nat (count v l))) (unique l)).
  destruct (sort_values_desc argsort s) as [| g t] eqn:Hs; simpl; [discriminate |].
  intros Hv; injection Hv as <-.
  apply sort_values_desc_head in Hs; destruct Hs as [Hg Hmax].
  unfold s in Hg; apply in_map_iff in Hg; destruct Hg as (v & <- & Hv).
  apply (proj1 (In_unique v l)) in Hv; simpl.
  split; [exact Hv |].
  intros w.
  destruct (Nat.eq_dec (count w l) 0) as [-> | Hpos]; [lia |].
  assert (Hw : In w l) by (apply count_pos_In; lia).
  specialize (Hmax (w, Z.of_nat (count w l))); simpl in Hmax.
  apply Nat2Z.inj_le, Hmax.
  unfold s; apply in_map_iff; exists w; split; [reflexivity |].
  now apply In_unique.
Qed.

(** On a column with at least one value the lookup does not raise. *)
Lemma most_common_total {A} `{Eqb A} (l : list A) :
  l <> [] -> exists v, most_common argsort l = Ok v.
Proof.
  intros Hne; unfold most_common, value_counts.
  set (s := map (fun v => (v, Z.of_nat (count v l))) (unique l)).
  destruct (sort_values_desc argsort s) as [| g t] eqn:Hs; simpl; [| eauto].
  pose proof (sort_values_desc_perm s) as Hp; rewrite Hs in Hp.
  apply Permutation_nil in Hp.
  destruct l as [| x l']; [congruence | discriminate].
Qed.

Lemma most_common_nil {A} `{Eqb A} :
  most_common argsort (@nil A) = Raise IndexError.
Proof.
  unfold most_common, value_counts; simpl.
  pose proof (@sort_values_desc_perm A []) as Hp.
  apply Permutation_sym, Permutation_nil in Hp; now rewrite Hp.
Qed.

End SortingFacts.

(** ** The reference [argsort] is admissible *)

Lemma insert_index_perm (values : list Z) (i : nat) (idx : list nat) :
  Permutation (insert_index values i idx) (i :: idx).
Proof.
  induction idx as [| j t IH]; simpl; [reflexivity |].
  destruct (nth i values 0 <? nth j values 0); [reflexivity |].
  rewrite IH; apply perm_swap.
Qed.

Lemma insert_index_sorted (values : list Z) (i : nat) (idx : list nat) :
  StronglySorted (fun a b => nth a values 0 <= nth b values 0) idx ->
  StronglySorted (fun a b => nth a values 0 <= nth b values 0)
                 (insert_index values i idx).
Proof.
  induction 1 as [| j t Ht IH Hj]; simpl; [repeat constructor |].
  destruct (Z.ltb_spec (nth i values 0) (nth j values 0)) as [Hlt | Hge].
  - constructor; [now constructor |].
    constructor; [lia |].
    rewrite Forall_forall in *; intros k Hk; specialize (Hj k Hk); lia.
  - constructor; [exact IH |].
    rewrite Forall_forall in *; intros k Hk.
    eapply Permutation_in in Hk; [| apply insert_index_perm].
    destruct Hk as [<- | Hk]; [lia | now apply Hj].
Qed.

Lemma fold_insert_index (values : list Z) (l acc : list nat) :
  StronglySorted (fun a b => nth a values 0 <= nth b values 0) acc ->
  let out := fold_left (fun idx i => insert_index values i idx) l acc in
  Permutation out (l ++ acc)
  /\ StronglySorted (fun a b => nth a values 0 <= nth b values 0) out.
Proof.
  revert acc; induction l as [| i t IH]; simpl; intros acc Hacc.
  - split; [reflexivity | exact Hacc].
  - destruct (IH (insert_index values i acc)) as [Hp Hs].
    + now apply insert_index_sorted.
    + split; [| exact Hs].
      rewrite Hp, insert_index_perm.
      symmetry; apply Permutation_middle.
Qed.

Lemma stable_argsort_ok : argsort_spec stable_argsort.
Proof.
  intros values; unfold stable_argsort.
  destruct (@fold_insert_index values (seq 0 (length values)) [])
    as [Hp Hs]; [constructor |].
  rewrite app_nil_r in Hp; split; assumption.
Qed.

(** ** The one-hot encoder *)

Lemma onehot_length {A} `{Eqb A} (cats : list A) (v : A) :
  length (onehot cats v) = length cats.
Proof. apply length_map. Qed.

Lemma onehot_unknown {A} `{Eqb A} (cats : list A) (v : A) :
  ~ In v cats -> onehot cats v = repeat 0 (length cats).
Proof.
  induction cats as [| c t IH]; simpl; intros Hnot; [reflexivity |].
  destruct (eqb_spec c v) as [-> | Hne]; [tauto |].
  f_equal; apply IH; tauto.
Qed.

Lemma onehot_range {A} `{Eqb A} (cats : list A) (v : A) :
  Forall (fun x => 0 <= x <= 1) (onehot cats v).
Proof.
  unfold onehot; rewrite Forall_map, Forall_forall; intros c _.
  destruct (eqb c v); lia.
Qed.

Lemma row_sum_nonneg (l : list Z) : Forall (fun x => 0 <= x <= 1) l -> 0 <= row_sum l.
Proof. induction 1; simpl; lia. Qed.

Lemma row_sum_repeat_zero (n : nat) : row_sum (repeat 0 n) = 0.
Proof. induction n; simpl; lia. Qed.

Lemma onehot_known_sum {A} `{Eqb A} (cats : list A) (v : A) :
  In v cats -> 0 < row_sum (onehot cats v).
Proof.
  induction cats as [| c t IH]; simpl; [tauto |].
  pose proof (row_sum_nonneg (onehot_range t v)) as Hge.
  destruct (eqb_spec c v) as [-> | Hne]; [fold (onehot t v); lia |].
  intros [Heq | Hin]; [congruence |].
  specialize (IH Hin); fold (onehot t v); lia.
Qed.

Lemma argmax_cons (x : Z) (t : list Z) :
  t <> [] ->
  argmax (x :: t) = if nth (argmax t) t 0 <=? x then O else S (argmax t).
Proof. destruct t; [congruence | reflexivity]. Qed.

(** The first maximal column of the block of a known value is its category. *)
Lemma argmax_onehot {A} `{Eqb A} (cats : list A) (v : A) :
  In v cats ->
  nth (argmax (onehot cats v)) (onehot cats v) 0 = 1
  /\ nth_error cats (argmax (onehot cats v)) = Some v.
Proof.
  induction cats as [| c t IH]; [intros [] |].
  intros Hin.
  change (onehot (c :: t) v) with ((if eqb c v then 1 else 0) :: onehot t v).
  destruct (eqb_spec c v) as [-> | Hne].
  - assert (Hz : argmax (1 :: onehot t v) = O).
    { destruct t as [| c' t']; [reflexivity |].
      rewrite argmax_cons by discriminate.
      destruct (Z.leb_spec (nth (argmax (onehot (c' :: t') v))
                                (onehot (c' :: t') v) 0) 1)
        as [_ | Hgt]; [reflexivity |].
      pose proof (onehot_range (c' :: t') v) as Hr; rewrite Forall_forall in Hr.
      destruct (nth_in_or_default (argmax (onehot (c' :: t') v))
                                  (onehot (c' :: t') v) 0)
        as [Hn | Hn]; [apply Hr in Hn |]; lia. }
    rewrite Hz; split; reflexivity.
  - destruct Hin as [Heq | Hin]; [congruence |].
    destruct (IH Hin) as [Hone Hcat].
    assert (Hs : argmax (0 :: onehot t v) = S (argmax (onehot t v))).
    { rewrite argmax_cons, Hone; [reflexivity |].
      destruct t; [destruct Hin | discriminate]. }
    rewrite Hs; split; simpl; assumption.
Qed.

Lemma inverse_block_onehot {A} `{Eqb A} (cats : list A) (v : A) :
  In v cats -> inverse_block cats (onehot cats v) = Some v.
Proof.
  intros Hin; unfold inverse_block.
  pose proof (onehot_known_sum cats v Hin) as Hpos.
  destruct (Z.eqb_spec (row_sum (onehot cats v)) 0); [lia |].
  now apply argmax_onehot.
Qed.

Lemma inverse_block_unknown {A} `{Eqb A} (cats : list A) (v : A) :
  ~ In v cats -> inverse_block cats (onehot cats v) = None.
Proof.
  intros Hnot; unfold inverse_block.
  now rewrite (onehot_unknown cats v Hnot), row_sum_repeat_zero.
Qed.

Lemma firstn_length_app {A} (a b : list A) : firstn (length a) (a ++ b) = a.
Proof. induction a; simpl; congruence. Qed.

Lemma onehot_row_length (enc : OneHotEncoder) (r : row) :
  length (onehot_row enc r) = n_features_out enc.
Proof.
  unfold onehot_row, n_features_out.
  rewrite !length_app, !onehot_length; lia.
Qed.

Lemma inverse_row_StockCode (enc : OneHotEncoder) (r : row) :
  fst (fst (inverse_row enc (onehot_row enc r)))
  = inverse_block (categories_StockCode enc)
      (onehot (categories_StockCode enc) (StockCode r)).
Proof.
  unfold inverse_row, onehot_row; simpl.
  rewrite <- (onehot_length (categories_StockCode enc) (StockCode r)) at 1.
  now rewrite firstn_length_app.
Qed.

Lemma enc_inverse_transform_total (enc : OneHotEncoder) (X : DataFrame) :
  enc_inverse_transform enc (map (onehot_row enc) X)
  = Ok (map (inverse_row enc) (map (onehot_row enc) X)).
Proof.
  unfold enc_inverse_transform.
  replace (forallb _ _) with true; [reflexivity |].
  symmetry; apply forallb_forall; intros x Hx.
  apply in_map_iff in Hx; destruct Hx as (r & <- & _).
  apply Nat.eqb_eq, onehot_row_length.
Qed.

Lemma enc_transform_Ok (enc : OneHotEncoder) (X : DataFrame) (M : list (list Z)) :
  enc_transform enc X = Ok M -> X <> [] /\ M = map (onehot_row enc) X.
Proof.
  destruct X as [| r t]; simpl; [discriminate |].
  intros HM; injection HM as <-; split; [discriminate | reflexivity].
Qed.

Lemma enc_fit_Ok (df : DataFrame) (enc : OneHotEncoder) :
  enc_fit df = Ok enc ->
  df <> []
  /\ categories_StockCode enc = np_unique (map StockCode df)
  /\ categories_CustomerID enc = np_unique (map CustomerID df)
  /\ categories_Country enc = np_unique (map Country df).
Proof.
  destruct df as [| r t]; simpl; [discriminate |].
  intros He; injection He as <-; simpl; repeat split; discriminate.
Qed.

(** ** Relating lists position by position *)

Lemma Forall2_rev {A B} (R : A -> B -> Prop) (l : list A) (l' : list B) :
  Forall2 R l l' -> Forall2 R (rev l) (rev l').
Proof.
  induction 1; simpl; [constructor |].
  apply Forall2_app; [assumption | repeat constructor; assumption].
Qed.

Lemma Forall2_firstn {A B} (R : A -> B -> Prop) (n : nat) (l : list A) (l' : list B) :
  Forall2 R l l' -> Forall2 R (firstn n l) (firstn n l').
Proof.
  intros H; revert n; induction H; intros [| n]; simpl; constructor; auto.
Qed.

Lemma Forall2_slice_rev_to {A B} (R : A -> B -> Prop) (stop : Z)
  (l : list A) (l' : list B) :
  Forall2 R l l' -> Forall2 R (slice_rev_to stop l) (slice_rev_to stop l').
Proof.
  intros H; unfold slice_rev_to.
  rewrite (Forall2_length H).
  now apply Forall2_firstn, Forall2_rev.
Qed.

Lemma Forall2_compose {A B C} (R : A -> B -> Prop) (S : B -> C -> Prop)
  (l : list A) (m : list B) (k : list C) :
  Forall2 R l m -> Forall2 S m k ->
  Forall2 (fun a c => exists b, R a b /\ S b c) l k.
Proof.
  intros H; revert k; induction H; intros k Hk; inversion Hk; subst;
    constructor; eauto.
Qed.

Lemma Forall2_weaken {A B} (R R' : A -> B -> Prop) (l : list A) (l' : list B) :
  (forall a b, R a b -> R' a b) -> Forall2 R l l' -> Forall2 R' l l'.
Proof. intros Hi; induction 1; constructor; auto. Qed.

Lemma Forall2_combine_In {A B} (R : A -> B -> Prop) (l : list A) (l' : list B)
  (x : A) (y : B) :
  Forall2 R l l' -> In (x, y) (combine l l') -> R x y.
Proof.
  induction 1; simpl; [tauto |].
  intros [Heq | Hin]; [injection Heq as <- <-; assumption | auto].
Qed.

Lemma Forall2_Forall_r {A B} (R : A -> B -> Prop) (P : B -> Prop)
  (l : list A) (l' : list B) :
  (forall a b, In a l -> R a b -> P b) -> Forall2 R l l' -> Forall P l'.
Proof.
  intros Hi H; induction H; constructor.
  - eapply Hi; [now left | eassumption].
  - apply IHForall2; intros a b Ha; apply Hi; now right.
Qed.

Lemma Forall2_Forall_l {A B} (R : A -> B -> Prop) (P : A -> Prop)
  (l : list A) (l' : list B) :
  (forall a b, R a b -> P a) -> Forall2 R l l' -> Forall P l.
Proof. intros Hi; induction 1; constructor; eauto. Qed.

Lemma combine_map_same {A B C} (f : A -> B) (g : A -> C) (l : list A) :
  combine (map f l) (map g l) = map (fun x => (f x, g x)) l.
Proof. induction l; simpl; congruence. Qed.

Lemma In_combine3 {A B C} (a : list A) (b : list B) (c : list C)
  (x : A) (y : B) (z : C) :
  In (x, y, z) (combine (combine a b) c) ->
  In (x, y) (combine a b) /\ In (x, z) (combine a c).
Proof.
  revert b c; induction a as [| a0 a IH]; intros [| b0 b] [| c0 c]; simpl;
    try tauto.
  intros [Heq | Hin]; [injection Heq as <- <- <-; auto |].
  apply IH in Hin; tauto.
Qed.

Lemma combine3_columns {A B C} (a : list A) (b : list B) (c : list C) :
  length a = length b -> length b = length c ->
  map (fun t => fst (fst t)) (combine (combine a b) c) = a
  /\ map (fun t => snd (fst t)) (combine (combine a b) c) = b
  /\ map snd (combine (combine a b) c) = c.
Proof.
  revert b c; induction a as [| a0 a IH]; intros [| b0 b] [| c0 c]; simpl;
    try discriminate; auto.
  intros Hab Hbc; injection Hab as Hab; injection Hbc as Hbc.
  destruct (IH b c Hab Hbc) as (-> & -> & ->); auto.
Qed.

(** ** Candidate selection and the inference frame *)

Section RecommenderFacts.

Variable argsort : list Z -> list nat.
Hypothesis argsort_ok : argsort_spec argsort.

Variable F : Type.
Variable F_of_indicator : Z -> F.
Variable F_of_price : Z -> F.
Variable Vectorizer : Type.
Variable vectorizer_fit : list string -> result Vectorizer.
Variable vectorizer_transform : Vectorizer -> list string -> result (list (list F)).

Local Abbreviation encode :=
  (encode_candidates argsort F_of_indicator F_of_price
     vectorizer_fit vectorizer_transform).
Local Abbreviation recommend :=
  (get_recommendations argsort F_of_indicator F_of_price
     vectorizer_fit vectorizer_transform).

Lemma popular_items_perm (df : DataFrame) :
  Permutation (popular_items argsort df) (customers_per_group df).
Proof. now apply sort_values_desc_perm. Qed.

Lemma popular_items_sorted (df : DataFrame) :
  StronglySorted descending (popular_items argsort df).
Proof. now apply sort_values_desc_sorted. Qed.

Lemma In_group_keys (df : DataFrame) (k : string * Z) :
  In k (group_keys df) <-> exists r, In r df /\ group_key r = k.
Proof.
  unfold group_keys; rewrite In_np_unique, in_map_iff.
  split; intros (r & H1 & H2); exists r; auto.
Qed.

Lemma popular_items_group (df : DataFrame) (g : (string * Z) * Z) :
  In g (popular_items argsort df) ->
  In (fst g) (group_keys df)
  /\ snd g = Z.of_nat (nunique (map CustomerID (group_rows df (fst g)))).
Proof.
  intros Hg.
  eapply Permutation_in in Hg; [| apply popular_items_perm].
  unfold customers_per_group in Hg; apply in_map_iff in Hg.
  destruct Hg as (k & <- & Hk); simpl; auto.
Qed.

Lemma top_n_columns (df : DataFrame) (n_ranks : Z) :
  top_n_items argsort df n_ranks
  = map (fun g => fst (fst g)) (slice_to n_ranks (popular_items argsort df))
  /\ top_n_prices argsort df n_ranks
     = map (fun g => snd (fst g)) (slice_to n_ranks (popular_items argsort df)).
Proof. unfold top_n_items, top_n_prices; now rewrite !slice_to_map. Qed.

Lemma In_slice_to {A} (n : Z) (l : list A) (x : A) :
  In x (slice_to n l) -> In x l.
Proof.
  destruct (slice_to_prefix n l) as [rest Hl]; intros Hx.
  rewrite Hl; apply in_or_app; now left.
Qed.

(** A candidate and its price are the key of a group of the frame. *)
Lemma top_n_observed (df : DataFrame) (n_ranks : Z) (code : string) (price : Z) :
  In (code, price)
     (combine (top_n_items argsort df n_ranks) (top_n_prices argsort df n_ranks)) ->
  exists r, In r df /\ StockCode r = code /\ UnitPrice r = price.
Proof.
  destruct (top_n_columns df n_ranks) as [-> ->].
  rewrite combine_map_same, in_map_iff.
  intros (g & Heq & Hg); injection Heq as <- <-.
  apply In_slice_to, popular_items_group in Hg; destruct Hg as [Hk _].
  apply In_group_keys in Hk; destruct Hk as (r & Hr & Hkey).
  exists r; rewrite <- Hkey; simpl; auto.
Qed.

Lemma top_n_items_In (df : DataFrame) (n_ranks : Z) (code : string) :
  In code (top_n_items argsort df n_ranks) -> In code (map StockCode df).
Proof.
  destruct (top_n_columns df n_ranks) as [-> _].
  rewrite in_map_iff; intros (g & <- & Hg).
  apply In_slice_to, popular_items_group in Hg; destruct Hg as [Hk _].
  apply In_group_keys in Hk; destruct Hk as (r & Hr & Hkey).
  apply in_map_iff; exists r; rewrite <- Hkey; simpl; auto.
Qed.

Lemma inference_frame_Ok (items descriptions : list string) (customer_id : Z)
  (country : string) (prices : list Z) (fr : DataFrame) :
  inference_frame items descriptions customer_id country prices = Ok fr ->
  map StockCode fr = items
  /\ map Description fr = descriptions
  /\ map UnitPrice fr = prices
  /\ Forall (fun r =>
        CustomerID r = customer_id /\ Country r = country
        /\ In (StockCode r, Description r) (combine items descriptions)
        /\ In (StockCode r, UnitPrice r) (combine items prices)) fr.
Proof.
  unfold inference_frame.
  destruct (Nat.eqb_spec (length items) (length descriptions)) as [H1 |];
    [| discriminate].
  destruct (Nat.eqb_spec (length descriptions) (length prices)) as [H2 |];
    [| discriminate].
  simpl; intros Hfr; injection Hfr as <-.
  rewrite !map_map; simpl.
  destruct (combine3_columns items descriptions prices H1 H2) as (Ha & Hb & Hc).
  repeat split; try assumption.
  rewrite Forall_map, Forall_forall; intros [[i d] p] Hin; simpl.
  apply In_combine3 in Hin; tauto.
Qed.

(** [item_map] sends a stock code to the most common of its descriptions. *)
Lemma item_map_getitem (df : DataFrame) (imap : list (string * string))
  (code d : string) :
  item_map argsort df = Ok imap ->
  getitem imap code = Ok d ->
  most_common argsort (map Description (stock_rows df code)) = Ok d.
Proof.
  unfold item_map; intros Hm; apply mapM_Ok_Forall2 in Hm.
  induction Hm as [| c [k v] cs t Hc _ IH]; simpl; [discriminate |].
  inv_bind Hc; injection Hc as <- <-.
  destruct (String.eqb_spec c code) as [-> | Hne]; [| exact IH].
  intros Hd; injection Hd as <-; assumption.
Qed.

Lemma most_common_frequent {A} `{Eqb A} (l : list A) (v : A) :
  most_common argsort l = Ok v -> most_frequent v l.
Proof. now apply most_common_spec. Qed.

(** What a successful encoding step has computed. *)
Lemma encode_candidates_Ok (df : DataFrame) (customer_id n_ranks : Z)
  (st : Encoded F) :
  encode df customer_id n_ranks = Ok st ->
  exists country descriptions,
    item_map argsort df = Ok (enc_item_map st)
    /\ customer_country argsort df customer_id = Ok country
    /\ mapM (getitem (enc_item_map st)) (top_n_items argsort df n_ranks)
       = Ok descriptions
    /\ inference_frame (top_n_items argsort df n_ranks) descriptions
         customer_id country (top_n_prices argsort df n_ranks)
       = Ok (enc_inference st)
    /\ enc_fit df = Ok (enc_encoder st)
    /\ enc_transform (enc_encoder st) (enc_inference st)
       = Ok (enc_onehot_output st)
    /\ exists vectorizer tfidf_output unit_price,
        vectorizer_fit (unique (map Description df)) = Ok vectorizer
        /\ vectorizer_transform vectorizer (map Description (enc_inference st))
           = Ok tfidf_output
        /\ unit_price_column F_of_price (map UnitPrice (enc_inference st))
           = Ok unit_price
        /\ hstack (map (map F_of_indicator) (enc_onehot_output st))
             tfidf_output unit_price
           = Ok (enc_X_inference st).
Proof.
  unfold encode_candidates; intros H.
  inv_bind H. inv_bind H. inv_bind H. inv_bind H. inv_bind H.
  inv_bind H. inv_bind H. inv_bind H. inv_bind H. inv_bind H.
  injection H as <-; simpl.
  eexists _, _; repeat split; try eassumption.
  eexists _, _, _; repeat split; eassumption.
Qed.

(** ** Ranking *)

(** Inverse-transforming the encoded candidates yields their stock codes. *)
Lemma encoded_items (df : DataFrame) (customer_id n_ranks : Z) (st : Encoded F) :
  encode df customer_id n_ranks = Ok st ->
  map StockCode (enc_inference st) = top_n_items argsort df n_ranks
  /\ exists inverse,
      enc_inverse_transform (enc_encoder st) (enc_onehot_output st) = Ok inverse
      /\ map (fun t => fst (fst t)) inverse
         = map (fun r => Some (StockCode r)) (enc_inference st).
Proof.
  intros Hst; apply encode_candidates_Ok in Hst.
  destruct Hst as (country & descriptions & _ & _ & _ & Hfr & Hfit & Htr & _).
  apply inference_frame_Ok in Hfr; destruct Hfr as (Hitems & _).
  apply enc_fit_Ok in Hfit; destruct Hfit as (_ & Hcats & _).
  apply enc_transform_Ok in Htr; destruct Htr as [_ ->].
  split; [exact Hitems |].
  rewrite enc_inverse_transform_total; eexists; split; [reflexivity |].
  rewrite !map_map; apply map_ext_in; intros r Hr.
  rewrite inverse_row_StockCode; apply inverse_block_onehot.
  rewrite Hcats; apply In_np_unique, (top_n_items_In df n_ranks).
  rewrite <- Hitems; now apply in_map.
Qed.

Lemma rank_candidates_Ok (df : DataFrame) (customer_id n_ranks : Z)
  (st : Encoded F) (preds : list Z) (n : Z) (recs : list (string * string)) :
  encode df customer_id n_ranks = Ok st ->
  rank_candidates argsort st preds n = Ok recs ->
  Forall2 (recommends st) (slice_rev_to (- n - 1) (argsort preds)) recs.
Proof.
  intros Hst Hrank.
  destruct (encoded_items _ _ _ Hst) as (_ & inverse & Hinv & Hitems).
  unfold rank_candidates in Hrank; rewrite Hinv in Hrank; simpl in Hrank.
  rewrite Hitems in Hrank.
  inv_bind Hrank; rename x into taken.
  apply mapM_Ok_Forall2 in Hx, Hrank.
  apply (Forall2_slice_rev_to (- n - 1)) in Hx.
  eapply Forall2_weaken; [| exact (Forall2_compose Hx Hrank)].
  intros i rec (x & Hi & Hrec); simpl in Hi.
  rewrite nth_error_map in Hi.
  destruct (nth_error (enc_inference st) i) as [r |] eqn:Hr; simpl in Hi;
    [| discriminate].
  injection Hi as <-; simpl in Hrec.
  inv_bind Hrec; injection Hrec as <-.
  exists r; auto.
Qed.

Lemma get_recommendations_Ok (predict : Predictor F) (df : DataFrame)
  (customer_id n n_ranks : Z) (recs : list (string * string)) :
  recommend predict df customer_id n n_ranks = Ok recs ->
  exists st preds,
    encode df customer_id n_ranks = Ok st
    /\ predict (enc_X_inference st) = Ok preds
    /\ rank_candidates argsort st preds n = Ok recs.
Proof.
  unfold get_recommendations; intros H.
  inv_bind H. inv_bind H. eauto.
Qed.

(** C1: a returned list holds the (item identifier, description) pairs of the
    candidates taken in the order of descending score: the positions [chosen]
    are an initial segment of all positions sorted by descending score,
    truncated to [n_recommendations] entries. *)
Theorem get_recommendations_descending_scores (predict : Predictor F)
  (df : DataFrame) (customer_id n_recommendations n_ranks : Z)
  (recs : list (string * string)) :
  recommend predict df customer_id n_recommendations n_ranks = Ok recs ->
  exists st preds,
    encode df customer_id n_ranks = Ok st
    /\ predict (enc_X_inference st) = Ok preds
    /\ let ranking := rev (argsort preds) in
       let chosen := slice_rev_to (- n_recommendations - 1) (argsort preds) in
       Permutation ranking (seq 0 (length preds))
       /\ StronglySorted (fun i j => nth j preds 0 <= nth i preds 0) ranking
       /\ (exists rest, ranking = chosen ++ rest)
       /\ Forall2 (recommends st) chosen recs
       /\ (0 <= n_recommendations ->
           length recs = Nat.min (Z.to_nat n_recommendations) (length preds)).
Proof.
  intros H; apply get_recommendations_Ok in H.
  destruct H as (st & preds & Hst & Hp & Hrank).
  exists st, preds; repeat split; try assumption.
  - rewrite <- Permutation_rev; now apply argsort_perm.
  - apply StronglySorted_rev
      with (R := fun i j => nth i preds 0 <= nth j preds 0).
    apply argsort_ok.
  - apply slice_rev_to_prefix.
  - eapply rank_candidates_Ok; eassumption.
  - intros Hn.
    pose proof (rank_candidates_Ok _ _ _ _ _ Hst Hrank) as Hf.
    rewrite <- (Forall2_length Hf), slice_rev_to_length by assumption.
    now rewrite argsort_length.
Qed.

(** C3: asking for more recommendations than candidate rows were built
    returns no more entries than there are candidate rows. *)
Theorem recommendations_bounded_by_candidates (predict : Predictor F)
  (df : DataFrame) (customer_id n_recommendations n_ranks : Z)
  (st : Encoded F) (recs : list (string * string)) :
  encode df customer_id n_ranks = Ok st ->
  recommend predict df customer_id n_recommendations n_ranks = Ok recs ->
  Z.of_nat (length (enc_inference st)) < n_recommendations ->
  (length recs <= length (enc_inference st))%nat
  /\ length (enc_inference st) = length (top_n_items argsort df n_ranks).
Proof.
  intros Hst H _; apply get_recommendations_Ok in H.
  destruct H as (st' & preds & Hst' & _ & Hrank).
  rewrite Hst in Hst'; injection Hst' as <-.
  split.
  - pose proof (rank_candidates_Ok _ _ _ _ _ Hst Hrank) as Hf.
    rewrite <- (Forall2_length Hf).
    destruct (slice_rev_to_prefix (- n_recommendations - 1) (argsort preds))
      as [rest Hrest].
    assert (Hnd : NoDup (slice_rev_to (- n_recommendations - 1) (argsort preds))).
    { apply NoDup_app_remove_r with (l' := rest); rewrite <- Hrest.
      apply NoDup_rev; now apply argsort_NoDup. }
    rewrite <- (length_seq (length (enc_inference st)) 0).
    apply NoDup_incl_length; [exact Hnd |].
    intros i Hi; apply in_seq; split; [lia | simpl].
    apply (@Forall2_Forall_l _ _ _
             (fun a => (a < length (enc_inference st))%nat)) in Hf.
    + rewrite Forall_forall in Hf; apply (Hf i Hi).
    + intros a b (r & Hr & _).
      apply nth_error_Some; congruence.
  - destruct (encoded_items _ _ _ Hst) as [<- _]; now rewrite length_map.
Qed.

(** C10: the encoder is fitted on the whole frame, so inverse-transforming
    the encoded candidates gives back their stock codes, and every item of a
    returned list is one of the selected candidates. *)
Theorem inverse_transform_recovers_candidates (predict : Predictor F)
  (df : DataFrame) (customer_id n_recommendations n_ranks : Z) (st : Encoded F) :
  encode df customer_id n_ranks = Ok st ->
  (exists inverse,
      enc_inverse_transform (enc_encoder st) (enc_onehot_output st) = Ok inverse
      /\ map (fun t => fst (fst t)) inverse
         = map Some (top_n_items argsort df n_ranks))
  /\ forall recs,
      recommend predict df customer_id n_recommendations n_ranks = Ok recs ->
      Forall (fun rec => In (fst rec) (top_n_items argsort df n_ranks)) recs.
Proof.
  intros Hst.
  destruct (encoded_items _ _ _ Hst) as (Hitems & inverse & Hinv & Hcol).
  split.
  - exists inverse; split; [exact Hinv |].
    now rewrite Hcol, <- Hitems, map_map.
  - intros recs H; apply get_recommendations_Ok in H.
    destruct H as (st' & preds & Hst' & _ & Hrank).
    rewrite Hst in Hst'; injection Hst' as <-.
    pose proof (rank_candidates_Ok _ _ _ _ _ Hst Hrank) as Hf.
    eapply Forall2_Forall_r; [| exact Hf].
    intros i rec _ (r & Hr & Hcode & _); cbv beta.
    rewrite Hcode, <- Hitems.
    apply in_map; eapply nth_error_In; eassumption.
Qed.

(** C9: every inference row carries the fixed customer id, the customer's
    most common country, the most common description of its stock code and a
    price observed for that stock code; every returned pair carries the most
    frequent description of its stock code. *)
Theorem inference_rows_most_common (predict : Predictor F)
  (df : DataFrame) (customer_id n_recommendations n_ranks : Z) (st : Encoded F) :
  encode df customer_id n_ranks = Ok st ->
  (exists country,
      customer_country argsort df customer_id = Ok country
      /\ most_frequent country
           (map Country (filter (fun r => eqb (CustomerID r) customer_id) df))
      /\ Forall (fun r =>
           CustomerID r = customer_id
           /\ Country r = country
           /\ most_frequent (Description r)
                (map Description (stock_rows df (StockCode r)))
           /\ exists r0, In r0 df /\ StockCode r0 = StockCode r
                         /\ UnitPrice r0 = UnitPrice r)
         (enc_inference st))
  /\ (exists vectorizer tfidf_output unit_price,
        enc_onehot_output st
        = map (onehot_row (enc_encoder st)) (enc_inference st)
        /\ vectorizer_fit (unique (map Description df)) = Ok vectorizer
        /\ vectorizer_transform vectorizer (map Description (enc_inference st))
           = Ok tfidf_output
        /\ unit_price = map (fun r => [F_of_price (UnitPrice r)]) (enc_inference st)
        /\ hstack (map (map F_of_indicator) (enc_onehot_output st))
             tfidf_output unit_price
           = Ok (enc_X_inference st))
  /\ forall recs,
      recommend predict df customer_id n_recommendations n_ranks = Ok recs ->
      Forall (fun rec =>
                most_frequent (snd rec)
                  (map Description (stock_rows df (fst rec)))) recs.
Proof.
  intros Hst.
  pose proof (encode_candidates_Ok _ _ _ Hst) as Hinv.
  destruct Hinv as (country & descriptions & Hmap & Hcountry & Hdesc & Hfr
                    & _ & Htr & vectorizer & tfidf_output & unit_price
                    & Hvf & Hvt & Hup & Hstack).
  split; [| split].
  - exists country; split; [exact Hcountry |].
    split; [now apply most_common_frequent |].
    apply mapM_Ok_Forall2 in Hdesc.
    apply inference_frame_Ok in Hfr; destruct Hfr as (_ & _ & _ & Hrows).
    eapply Forall_impl; [| exact Hrows].
    intros r (Hc & Hco & Hd & Hp); repeat split; try assumption.
    + apply most_common_frequent.
      eapply item_map_getitem; [exact Hmap |].
      exact (Forall2_combine_In _ _ Hdesc Hd).
    + apply most_common_frequent.
      eapply item_map_getitem; [exact Hmap |].
      exact (Forall2_combine_In _ _ Hdesc Hd).
    + destruct (top_n_observed _ _ _ _ Hp) as (r0 & H0); exists r0; exact H0.
  - exists vectorizer, tfidf_output, unit_price.
    apply enc_transform_Ok in Htr; destruct Htr as [_ Htr].
    repeat split; try assumption.
    unfold unit_price_column in Hup.
    destruct (enc_inference st) as [| r t]; [discriminate |].
    injection Hup as <-; now rewrite map_map.
  - intros recs H; apply get_recommendations_Ok in H.
    destruct H as (st' & preds & Hst' & _ & Hrank).
    rewrite Hst in Hst'; injection Hst' as <-.
    pose proof (rank_candidates_Ok _ _ _ _ _ Hst Hrank) as Hf.
    eapply Forall2_Forall_r; [| exact Hf].
    intros i rec _ (r & _ & Hcode & Hget); cbv beta.
    rewrite Hcode; apply most_common_frequent.
    eapply item_map_getitem; [exact Hmap | exact Hget].
Qed.

(** C2 (as the code behaves): for a pool size [n_ranks >= 0] the selection
    returns the first [min n_ranks G] entries of the [G] groups of distinct
    (stock code, unit price) pairs, ordered by descending number of distinct
    customers of the group, ties as the sort leaves them. *)
Theorem candidate_selection_top_groups (df : DataFrame) (n_ranks : Z) :
  0 <= n_ranks ->
  let pool := slice_to n_ranks (popular_items argsort df) in
  top_n_items argsort df n_ranks = map (fun g => fst (fst g)) pool
  /\ top_n_prices argsort df n_ranks = map (fun g => snd (fst g)) pool
  /\ length pool = Nat.min (Z.to_nat n_ranks) (length (group_keys df))
  /\ (exists rest,
        Permutation (pool ++ rest) (customers_per_group df)
        /\ StronglySorted descending (pool ++ rest))
  /\ NoDup (group_keys df)
  /\ (forall k, In k (group_keys df) <-> exists r, In r df /\ group_key r = k)
  /\ Forall (fun g =>
       In (fst g) (group_keys df)
       /\ snd g = Z.of_nat (nunique (map CustomerID (group_rows df (fst g)))))
     pool.
Proof.
  intros Hn pool.
  destruct (top_n_columns df n_ranks) as [Hitems Hprices].
  repeat split; try assumption.
  - unfold pool; rewrite slice_to_length by assumption.
    rewrite (Permutation_length (popular_items_perm df)).
    unfold customers_per_group; now rewrite length_map.
  - destruct (slice_to_prefix n_ranks (popular_items argsort df)) as [rest Hrest].
    exists rest; fold pool in Hrest; rewrite <- Hrest.
    split; [apply popular_items_perm | apply popular_items_sorted].
  - apply NoDup_np_unique.
  - apply In_group_keys.
  - apply In_group_keys.
  - rewrite Forall_forall; intros g Hg.
    apply popular_items_group; now apply In_slice_to in Hg.
Qed.

End RecommenderFacts.

(** The encoder on its own, outside [get_recommendations]: a category value
    it has not seen sets no column: its block of indicator columns is all
    zero, the row is no wider than the fitted categories, the inverse
    transform reads the block as [None], and encoding a frame with at least
    one row does not raise. *)
Lemma unknown_category_zero_block (enc : OneHotEncoder) (X : DataFrame) :
  X <> [] ->
  enc_transform enc X = Ok (map (onehot_row enc) X)
  /\ Forall (fun r =>
       length (onehot_row enc r) = n_features_out enc
       /\ (~ In (StockCode r) (categories_StockCode enc) ->
           onehot (categories_StockCode enc) (StockCode r)
           = repeat 0 (length (categories_StockCode enc))
           /\ fst (fst (inverse_row enc (onehot_row enc r))) = None)
       /\ (~ In (CustomerID r) (categories_CustomerID enc) ->
           onehot (categories_CustomerID enc) (CustomerID r)
           = repeat 0 (length (categories_CustomerID enc)))
       /\ (~ In (Country r) (categories_Country enc) ->
           onehot (categories_Country enc) (Country r)
           = repeat 0 (length (categories_Country enc)))) X.
Proof.
  intros Hne; split.
  - destruct X as [| r t]; [congruence | reflexivity].
  - rewrite Forall_forall; intros r _.
    split; [apply onehot_row_length |].
    split; [| split]; intros Hnot; try now apply onehot_unknown.
    split; [now apply onehot_unknown |].
    rewrite inverse_row_StockCode; now apply inverse_block_unknown.
Qed.

(** ** Worked examples *)

Example sample_popular_items :
  popular_items stable_argsort sample_df
  = [("C", 7, 3); ("A", 10, 2); ("A", 12, 1); ("B", 5, 1)].
Proof. reflexivity. Qed.

Example sample_top5 :
  sample_recommend price_score sample_df 1 5 100
  = Ok [("A", "apple"); ("A", "apple"); ("C", "cake"); ("B", "bread")].
Proof. reflexivity. Qed.

Example sample_top2 :
  sample_recommend price_score sample_df 1 2 100
  = Ok [("A", "apple"); ("A", "apple")].
Proof. reflexivity. Qed.

Example sample_unknown_customer :
  sample_recommend price_score sample_df 9 5 100 = Raise IndexError.
Proof. reflexivity. Qed.

Example sample_encoder_fit : enc_fit sample_df = Ok sample_encoder.
Proof. reflexivity. Qed.

(** ** Instances of the theorems and concrete refutations *)

Lemma get_recommendations_descending_scores_witness :
  argsort_spec stable_argsort
  /\ sample_recommend price_score sample_df 1 2 100
     = Ok [("A", "apple"); ("A", "apple")]
  /\ exists st preds,
      sample_encode sample_df 1 100 = Ok st
      /\ price_score (enc_X_inference st) = Ok preds
      /\ Forall2 (recommends st)
           (slice_rev_to (- 2 - 1) (stable_argsort preds))
           [("A", "apple"); ("A", "apple")]
      /\ length [("A", "apple"); ("A", "apple")]
         = Nat.min (Z.to_nat 2) (length preds).
Proof.
  split; [exact stable_argsort_ok |].
  split; [reflexivity |].
  pose proof (@get_recommendations_descending_scores
                stable_argsort stable_argsort_ok Z (fun z => z) (fun z => z)
                _ whole_description_fit whole_description_transform
                price_score sample_df 1 2 100 _ eq_refl) as H.
  cbv zeta in H.
  destruct H as (st & preds & Hst & Hp & _ & _ & _ & Hf & Hlen).
  exists st, preds; repeat split; try assumption.
  apply Hlen; lia.
Defined.

Lemma recommendations_bounded_by_candidates_witness :
  exists st recs,
    argsort_spec stable_argsort
    /\ sample_encode sample_df 1 100 = Ok st
    /\ sample_recommend price_score sample_df 1 200 100 = Ok recs
    /\ Z.of_nat (length (enc_inference st)) < 200
    /\ (length recs <= length (enc_inference st))%nat.
Proof.
  eexists; eexists.
  split; [exact stable_argsort_ok |].
  split; [reflexivity |].
  split; [reflexivity |].
  split; [vm_compute; reflexivity |].
  apply (@recommendations_bounded_by_candidates
           stable_argsort stable_argsort_ok Z (fun z => z) (fun z => z)
           _ whole_description_fit whole_description_transform
           price_score sample_df 1 200 100 _ _ eq_refl eq_refl).
  vm_compute; reflexivity.
Defined.

Lemma inverse_transform_recovers_candidates_witness :
  exists st,
    argsort_spec stable_argsort
    /\ sample_encode sample_df 1 2 = Ok st
    /\ (exists inverse,
          enc_inverse_transform (enc_encoder st) (enc_onehot_output st)
          = Ok inverse
          /\ map (fun t => fst (fst t)) inverse
             = map Some (top_n_items stable_argsort sample_df 2))
    /\ Forall (fun rec => In (fst rec) (top_n_items stable_argsort sample_df 2))
         [("A", "apple"); ("C", "cake")].
Proof.
  eexists.
  split; [exact stable_argsort_ok |].
  split; [reflexivity |].
  pose proof (@inverse_transform_recovers_candidates
                stable_argsort stable_argsort_ok Z (fun z => z) (fun z => z)
                _ whole_description_fit whole_description_transform
                price_score sample_df 1 5 2 _ eq_refl) as [Hinv Hrecs].
  split; [exact Hinv |].
  apply Hrecs; reflexivity.
Defined.

Lemma inference_rows_most_common_witness :
  exists st,
    argsort_spec stable_argsort
    /\ sample_encode sample_df 1 2 = Ok st
    /\ Forall (fun rec =>
                 most_frequent (snd rec)
                   (map Description (stock_rows sample_df (fst rec))))
         [("A", "apple"); ("C", "cake")].
Proof.
  eexists.
  split; [exact stable_argsort_ok |].
  split; [reflexivity |].
  pose proof (@inference_rows_most_common
                stable_argsort stable_argsort_ok Z (fun z => z) (fun z => z)
                _ whole_description_fit whole_description_transform
                price_score sample_df 1 5 2 _ eq_refl) as (_ & _ & Hrecs).
  apply Hrecs; reflexivity.
Defined.

Lemma candidate_selection_top_groups_witness :
  argsort_spec stable_argsort
  /\ 0 <= 2
  /\ top_n_items stable_argsort sample_df 2
     = map (fun g => fst (fst g))
           (slice_to 2 (popular_items stable_argsort sample_df))
  /\ length (slice_to 2 (popular_items stable_argsort sample_df))
     = Nat.min (Z.to_nat 2) (length (group_keys sample_df)).
Proof.
  split; [exact stable_argsort_ok |].
  split; [lia |].
  pose proof (@candidate_selection_top_groups
                stable_argsort stable_argsort_ok sample_df 2 ltac:(lia)) as H.
  cbv zeta in H.
  destruct H as (Hitems & _ & Hlen & _).
  split; assumption.
Defined.

Lemma unknown_category_zero_block_witness :
  [unseen_row] <> []
  /\ ~ In (StockCode unseen_row) (categories_StockCode sample_encoder)
  /\ enc_transform sample_encoder [unseen_row]
     = Ok (map (onehot_row sample_encoder) [unseen_row])
  /\ onehot (categories_StockCode sample_encoder) (StockCode unseen_row)
     = repeat 0 (length (categories_StockCode sample_encoder))
  /\ fst (fst (inverse_row sample_encoder
                 (onehot_row sample_encoder unseen_row))) = None.
Proof.
  assert (Hne : [unseen_row] <> []) by discriminate.
  assert (Hnot : ~ In (StockCode unseen_row)
                      (categories_StockCode sample_encoder)).
  { simpl; intros [H | [H | [H | []]]]; discriminate. }
  split; [exact Hne |].
  split; [exact Hnot |].
  destruct (@unknown_category_zero_block sample_encoder [unseen_row] Hne)
    as [Htr Hrows].
  split; [exact Htr |].
  inversion Hrows as [| r t (_ & Hstock & _) _]; subst.
  exact (Hstock Hnot).
Defined.

(** C2 refuted as stated: a frame with one group yields one candidate when
    two are asked for; and the one candidate selected from [split_price_df]
    is item B, bought by two distinct customers, although item A is bought by
    three. *)
Lemma candidate_selection_not_top_items :
  length (top_n_items stable_argsort single_row_df 2) = 1%nat
  /\ length (top_n_items stable_argsort single_row_df 2) <> Z.to_nat 2
  /\ top_n_items stable_argsort split_price_df 1 = ["B"]
  /\ nunique (map CustomerID (stock_rows split_price_df "A")) = 3%nat
  /\ nunique (map CustomerID (stock_rows split_price_df "B")) = 2%nat.
Proof. repeat split; try reflexivity; discriminate. Qed.

(** The encoder on its own: a row of values never seen at fitting time is
    encoded with no column set at all, in a row exactly as wide as the fitted
    categories. *)
Lemma unknown_category_sets_no_column :
  enc_fit sample_df = Ok sample_encoder
  /\ ~ In (StockCode unseen_row) (categories_StockCode sample_encoder)
  /\ enc_transform sample_encoder [unseen_row] = Ok [[0; 0; 0; 0; 0; 0; 0; 0]]
  /\ length (onehot_row sample_encoder unseen_row) = 8%nat
  /\ (length (categories_StockCode sample_encoder)
      + length (categories_CustomerID sample_encoder)
      + length (categories_Country sample_encoder))%nat = 8%nat.
Proof.
  repeat split; try reflexivity.
  simpl; intros [H | [H | [H | []]]]; discriminate.
Qed.

(** C5 refuted as stated: with [n_ranks = 0], and with an empty frame, the
    pool is empty and the call raises instead of returning the empty list. *)
Lemma empty_candidate_pool_no_empty_list :
  top_n_items stable_argsort sample_df 0 = []
  /\ sample_recommend price_score sample_df 1 5 0 = Raise ValueError
  /\ sample_recommend price_score sample_df 1 5 0 <> Ok []
  /\ top_n_items stable_argsort [] 100 = []
  /\ sample_recommend price_score [] 1 5 100 = Raise IndexError
  /\ sample_recommend price_score [] 1 5 100 <> Ok [].
Proof. repeat split; try reflexivity; discriminate. Qed.

(** ** The polling loop *)

Module ModelPackagePollingFacts.

Import ModelPackagePolling.

Lemma terminal_iff (status : string) :
  terminal status = true <-> status = "Completed" \/ status = "Failed".
Proof.
  unfold terminal; simpl.
  destruct (String.eqb_spec status "Completed"),
           (String.eqb_spec status "Failed"); simpl; intuition congruence.
Qed.

Section LoopFacts.

Variable describe_model_package : nat -> result string.

Lemma loop_Exited (fuel : nat) (st st' : state) :
  last_observed describe_model_package st ->
  loop describe_model_package fuel st = Exited st' ->
  terminal (mp_status st') = true
  /\ last_observed describe_model_package st'.
Proof.
  revert st; induction fuel as [| fuel IH]; intros st Hobs; simpl;
    destruct (terminal (mp_status st)) eqn:Ht.
  - intros H; injection H as <-; auto.
  - discriminate.
  - intros H; injection H as <-; auto.
  - destruct (describe_model_package (calls st)) as [status | e] eqn:Hd;
      [| discriminate].
    apply IH; exists (calls st); auto.
Qed.

(** C7: the loop is left only on a terminal status: when it exits, the
    status answered by the latest call is ["Completed"] or ["Failed"]; on
    any other status it does not exit but sleeps five seconds, calls the
    service again and goes on with the answer. *)
Theorem polling_exits_on_terminal_status_only (fuel : nat) (st : state) :
  last_observed describe_model_package st ->
  (forall st', loop describe_model_package fuel st = Exited st' ->
     (mp_status st' = "Completed" \/ mp_status st' = "Failed")
     /\ last_observed describe_model_package st')
  /\ (terminal (mp_status st) = false ->
      loop describe_model_package fuel st <> Exited st
      /\ loop describe_model_package (S fuel) st
         = match describe_model_package (calls st) with
           | Raise e => Raised e (sleep_and_call st)
           | Ok status =>
               loop describe_model_package fuel
                    (observe (sleep_and_call st) status)
           end
      /\ trace (sleep_and_call st) = trace st ++ [Sleep 5; Describe]).
Proof.
  intros Hobs; split.
  - intros st' Hexit.
    destruct (loop_Exited fuel Hobs Hexit) as [Ht Hl].
    split; [now apply terminal_iff | exact Hl].
  - intros Hnt; split; [| split].
    + intros Hexit.
      destruct (loop_Exited fuel Hobs Hexit) as [Ht _]; congruence.
    + simpl; now rewrite Hnt.
    + reflexivity.
Qed.

(** The cell as a whole: a normal exit happened on a terminal status that
    the latest call answered. *)
Lemma cell_Exited (fuel : nat) (st : state) :
  cell describe_model_package fuel = Exited st ->
  (mp_status st = "Completed" \/ mp_status st = "Failed")
  /\ last_observed describe_model_package st.
Proof.
  unfold cell.
  destruct (describe_model_package O) as [status | e] eqn:Hd; [| discriminate].
  destruct (loop describe_model_package fuel _) as [st1 | e st1 | st1] eqn:Hl;
    try discriminate.
  intros H; injection H as <-.
  apply loop_Exited in Hl; [| exists O; auto].
  destruct Hl as [Ht Hl]; split; [now apply terminal_iff | exact Hl].
Qed.

(** The loop does exit once the service answers a terminal status: with
    [n] non-terminal answers before it, [S n] iterations suffice. *)
Lemma loop_exits_after (n : nat) (st : state) :
  terminal (mp_status st) = false ->
  (forall j, (j < n)%nat ->
     exists status, describe_model_package (calls st + j) = Ok status
                    /\ terminal status = false) ->
  (exists status, describe_model_package (calls st + n) = Ok status
                  /\ terminal status = true) ->
  exists st', loop describe_model_package (S n) st = Exited st'
              /\ calls st' = (calls st + S n)%nat.
Proof.
  revert st; induction n as [| n IH]; intros st Hnt Hpending Hdone.
  - destruct Hdone as (status & Hd & Ht).
    rewrite Nat.add_0_r in Hd.
    eexists; split.
    + simpl; rewrite Hnt, Hd; simpl; rewrite Ht; reflexivity.
    + simpl; lia.
  - destruct (Hpending O ltac:(lia)) as (status & Hd & Ht).
    rewrite Nat.add_0_r in Hd.
    destruct (IH (observe (sleep_and_call st) status)) as (st' & Hl & Hc).
    + exact Ht.
    + intros j Hj; simpl.
      destruct (Hpending (S j) ltac:(lia)) as (s & Hs & Hts).
      exists s; split; [| exact Hts].
      now rewrite <- Nat.add_succ_r.
    + destruct Hdone as (s & Hs & Hts); simpl.
      exists s; split; [| exact Hts].
      now rewrite <- Nat.add_succ_r.
    + exists st'; split.
      * change (loop describe_model_package (S (S n)) st)
          with (if terminal (mp_status st) then Exited st
                else match describe_model_package (calls st) with
                     | Raise e => Raised e (sleep_and_call st)
                     | Ok status0 =>
                         loop describe_model_package (S n)
                              (observe (sleep_and_call st) status0)
                     end).
        now rewrite Hnt, Hd.
      * simpl in Hc; lia.
Qed.

End LoopFacts.

Example cell_run :
  cell two_pending_then_completed 5
  = Exited {| mp_status := "Completed";
              calls := 3;
              trace := [Describe;
                        Sleep 5; Describe; Print "model package status: InProgress";
                        Sleep 5; Describe; Print "model package status: Completed";
                        Print "model package status: Completed"] |}.
Proof. reflexivity. Qed.

Lemma polling_exits_on_terminal_status_only_witness :
  last_observed two_pending_then_completed pending_state
  /\ terminal (mp_status pending_state) = false
  /\ (exists st',
        loop two_pending_then_completed 5 pending_state = Exited st'
        /\ (mp_status st' = "Completed" \/ mp_status st' = "Failed"))
  /\ loop two_pending_then_completed 5 pending_state <> Exited pending_state
  /\ trace (sleep_and_call pending_state) = [Describe; Sleep 5; Describe].
Proof.
  assert (Hobs : last_observed two_pending_then_completed pending_state)
    by (exists O; split; reflexivity).
  split; [exact Hobs |].
  split; [reflexivity |].
  destruct (@polling_exits_on_terminal_status_only
              two_pending_then_completed 5%nat pending_state Hobs)
    as [Hexit Hagain].
  split.
  - eexists; split; [reflexivity |].
    eapply Hexit; reflexivity.
  - destruct (Hagain eq_refl) as (Hstay & _ & Htrace).
    split; [exact Hstay | exact Htrace].
Defined.

End ModelPackagePollingFacts.

(** ** The association loop *)

Module ArtifactAssociationFacts.

Import ArtifactAssociation.

Section LoopFacts.

Variable Store : Type.
Variable create : Store -> request -> Store * option exn.
Variable trial_component_arn : string.

Lemma associate_returns (entry : Artifact * string) (st : state Store) :
  associate create trial_component_arn entry st
  = ({| store := fst (create (store st) (request_of trial_component_arn entry));
        requests := requests st ++ [request_of trial_component_arn entry];
        stdout := stdout st ++ [line_of create trial_component_arn st entry] |},
     Ok tt).
Proof.
  unfold associate, try_except, and_then, association_create, line_of, print.
  destruct (create (store st) (request_of trial_component_arn entry))
    as [store' [e |]]; reflexivity.
Qed.

(** C8: whatever [create] does, the loop ends without an exception; every
    artifact of the list is submitted, in order, also after a failure; and an
    iteration whose [create] raised prints that the association already
    exists and goes on with the next artifact. *)
Theorem association_loop_never_raises (l : list (Artifact * string))
  (st : state Store) :
  exists st',
    for_each create trial_component_arn l st = (st', Ok tt)
    /\ requests st' = requests st ++ map (request_of trial_component_arn) l
    /\ length (stdout st') = (length (stdout st) + length l)%nat
    /\ match l with
       | [] => st' = st
       | entry :: rest =>
           exists st1,
             associate create trial_component_arn entry st = (st1, Ok tt)
             /\ for_each create trial_component_arn rest st1 = (st', Ok tt)
             /\ (forall e,
                   snd (create (store st) (request_of trial_component_arn entry))
                   = Some e ->
                   stdout st1 = stdout st ++ [exists_line (fst entry)])
             /\ (snd (create (store st) (request_of trial_component_arn entry))
                 = None ->
                 stdout st1 = stdout st ++ [success_line (fst entry)])
       end.
Proof.
  revert st; induction l as [| entry rest IH]; intros st.
  - exists st; simpl; unfold ret.
    rewrite app_nil_r, Nat.add_0_r; auto.
  - simpl; unfold and_then; rewrite associate_returns.
    match goal with
    | |- context [for_each create trial_component_arn rest ?s] => set (st1 := s)
    end.
    destruct (IH st1) as (st' & Hrun & Hreq & Hout & _).
    exists st'; split; [exact Hrun |].
    split; [rewrite Hreq; simpl; now rewrite <- app_assoc |].
    split; [rewrite Hout; simpl; rewrite length_app; simpl; lia |].
    exists st1; split; [reflexivity |].
    split; [exact Hrun |].
    unfold st1, line_of; simpl.
    split; [intros e -> | intros ->]; reflexivity.
Qed.

End LoopFacts.

Example recorded_run :
  for_each recorded_create "arn:trial"
    (artifact_list recorded_training recorded_model) recorded_start
  = ({| store := ["arn:model"; "arn:data"];
        requests := [ {| source_arn := "arn:data";
                         destination_arn := "arn:trial";
                         association_type := "ContributedTo" |};
                      {| source_arn := "arn:model";
                         destination_arn := "arn:trial";
                         association_type := "Produced" |} ];
        stdout := ["Association already exists with DataSet";
                   "Association with Model: SUCCEESFUL"] |}, Ok tt).
Proof. reflexivity. Qed.

Lemma association_loop_never_raises_witness :
  snd (recorded_create (store recorded_start)
         (request_of "arn:trial" (recorded_training, "ContributedTo")))
  = Some (ClientError "ValidationException")
  /\ exists st',
      for_each recorded_create "arn:trial"
        (artifact_list recorded_training recorded_model) recorded_start
      = (st', Ok tt)
      /\ length (stdout st') = 2%nat.
Proof.
  split; [reflexivity |].
  destruct (@association_loop_never_raises _ recorded_create "arn:trial"
              (artifact_list recorded_training recorded_model) recorded_start)
    as (st' & Hrun & _ & Hout & _).
  exists st'; split; [exact Hrun | exact Hout].
Defined.

End ArtifactAssociationFacts.

(** * Further properties of the notebook's code *)

(** ** Comprehensions, lookups and slices *)

Lemma mapM_total {A B} (f : A -> result B) (l : list A) :
  (forall x, In x l -> exists y, f x = Ok y) -> exists out, mapM f l = Ok out.
Proof.
  induction l as [| x t IH]; intros Hall; simpl; [eauto |].
  destruct (Hall x (or_introl eq_refl)) as [y ->]; simpl.
  destruct IH as [ys ->]; [intros z Hz; apply Hall; now right |].
  simpl; eauto.
Qed.

Lemma mapM_firstn {A B} (f : A -> result B) (k : nat) (l : list A) (out : list B) :
  mapM f l = Ok out -> mapM f (firstn k l) = Ok (firstn k out).
Proof.
  revert k out; induction l as [| x t IH]; intros k out; simpl.
  - intros H; injection H as <-; now rewrite !firstn_nil.
  - intros H; inv_bind H; inv_bind H; injection H as <-.
    destruct k as [| k]; simpl; [reflexivity |].
    now rewrite Hx, (IH k _ Hx0).
Qed.

(** A comprehension whose elements raise nothing but [e], and one of which
    does raise, raises [e]. *)
Lemma mapM_raises {A B} (f : A -> result B) (e : exn) (l : list A) :
  (forall x, In x l -> (exists y, f x = Ok y) \/ f x = Raise e) ->
  (exists x, In x l /\ f x = Raise e) ->
  mapM f l = Raise e.
Proof.
  induction l as [| x t IH]; intros Hall (z & Hz & Hfz); [destruct Hz |].
  simpl; destruct (Hall x (or_introl eq_refl)) as [[y Hy] | Hy];
    rewrite Hy; simpl; [| reflexivity].
  rewrite IH; [reflexivity | intros w Hw; apply Hall; now right |].
  destruct Hz as [-> | Hz]; [congruence | eauto].
Qed.

Lemma getitem_total {K V} `{Eqb K} (s : list (K * V)) (key : K) :
  In key (map fst s) -> exists v, getitem s key = Ok v.
Proof.
  induction s as [| [k v] t IH]; simpl; [tauto |].
  destruct (eqb_spec k key) as [-> | Hne]; [eauto |].
  intros [Heq | Hin]; [congruence | auto].
Qed.

Lemma getitem_missing {K V} `{Eqb K} (s : list (K * V)) (key : K) :
  ~ In key (map fst s) -> getitem s key = Raise KeyError.
Proof.
  induction s as [| [k v] t IH]; simpl; [reflexivity |].
  destruct (eqb_spec k key) as [-> | Hne]; [tauto |].
  intros Hnot; apply IH; tauto.
Qed.

Lemma slice_to_firstn {A} (n : Z) (l : list A) :
  0 <= n -> slice_to n l = firstn (Z.to_nat n) l.
Proof.
  intros Hn; unfold slice_to.
  destruct (Z.ltb_spec n 0); [lia |].
  destruct (Z.le_gt_cases n (Z.of_nat (length l))).
  - now rewrite Z.min_l.
  - rewrite Z.min_r, Nat2Z.id, !firstn_all2 by lia; reflexivity.
Qed.

Lemma slice_to_negative {A} (n : Z) (l : list A) :
  n < 0 -> slice_to n l = firstn (length l - Z.to_nat (- n)) l.
Proof.
  intros Hn; unfold slice_to.
  destruct (Z.ltb_spec n 0); [| lia].
  f_equal; lia.
Qed.

Lemma slice_rev_to_firstn {A} (n : Z) (l : list A) :
  0 <= n -> slice_rev_to (- n - 1) l = firstn (Z.to_nat n) (rev l).
Proof.
  intros Hn; unfold slice_rev_to.
  destruct (Z.ltb_spec (- n - 1) 0); [| lia].
  destruct (Z.le_gt_cases n (Z.of_nat (length l))).
  - f_equal; lia.
  - rewrite !firstn_all2; [reflexivity | |]; rewrite length_rev; lia.
Qed.

Lemma slice_rev_to_negative {A} (n : Z) (l : list A) :
  n < 0 ->
  slice_rev_to (- n - 1) l = firstn (length l - Z.to_nat (- n)) (rev l).
Proof.
  intros Hn; unfold slice_rev_to.
  destruct (Z.ltb_spec (- n - 1) 0); [lia |].
  f_equal; lia.
Qed.

Lemma filter_nil_iff {A} (f : A -> bool) (l : list A) :
  filter f l = [] <-> forall x, In x l -> f x = false.
Proof.
  induction l as [| x t IH]; simpl; [tauto |].
  destruct (f x) eqn:Hf; split.
  - discriminate.
  - intros Hall; specialize (Hall x (or_introl eq_refl)); congruence.
  - intros Hnil y [<- | Hy]; [assumption | now apply IH].
  - intros Hall; apply IH; intros y Hy; apply Hall; now right.
Qed.

Section RecommenderEdges.

Variable argsort : list Z -> list nat.
Hypothesis argsort_ok : argsort_spec argsort.

Variable F : Type.
Variable F_of_indicator : Z -> F.
Variable F_of_price : Z -> F.
Variable Vectorizer : Type.
Variable vectorizer_fit : list string -> result Vectorizer.
Variable vectorizer_transform : Vectorizer -> list string -> result (list (list F)).

Local Abbreviation encode :=
  (encode_candidates argsort F_of_indicator F_of_price
     vectorizer_fit vectorizer_transform).
Local Abbreviation recommend :=
  (get_recommendations argsort F_of_indicator F_of_price
     vectorizer_fit vectorizer_transform).

Lemma stock_rows_nonempty (df : DataFrame) (code : string) :
  In code (map StockCode df) -> map Description (stock_rows df code) <> [].
Proof.
  intros Hin; apply in_map_iff in Hin; destruct Hin as (r & <- & Hr).
  assert (Hf : In r (stock_rows df (StockCode r))).
  { unfold stock_rows; apply filter_In; split; [exact Hr | apply eqb_refl]. }
  destruct (stock_rows df (StockCode r)); [destruct Hf | discriminate].
Qed.

(** [item_map] is defined on every frame and is keyed by the sorted distinct
    stock codes. *)
Lemma item_map_defined (df : DataFrame) :
  exists imap, item_map argsort df = Ok imap
               /\ map fst imap = np_unique (map StockCode df).
Proof.
  unfold item_map.
  set (f := fun code =>
              d <- most_common argsort (map Description (stock_rows df code)) ;;
              Ok (code, d)).
  destruct (@mapM_total _ _ f (np_unique (map StockCode df))) as [imap Hm].
  - intros code Hcode; apply (proj1 (In_np_unique _ _)) in Hcode; unfold f.
    destruct (most_common_total argsort_ok (stock_rows_nonempty _ _ Hcode))
      as [d ->]; simpl; eauto.
  - exists imap; split; [exact Hm |].
    apply mapM_Ok_Forall2 in Hm.
    induction Hm as [| c [k v] cs t Hc _ IH]; simpl; [reflexivity |].
    unfold f in Hc; inv_bind Hc; injection Hc as <- <-.
    now rewrite IH.
Qed.

(** X1: [item_map] never raises; it has exactly one entry per distinct stock
    code of the frame, in sorted order; looking up a stock code of the frame
    gives one of its most frequent descriptions, and looking up any other
    code raises [KeyError]. *)
Theorem item_map_total_keyed_by_stock_code (df : DataFrame) :
  exists imap,
    item_map argsort df = Ok imap
    /\ map fst imap = np_unique (map StockCode df)
    /\ NoDup (map fst imap)
    /\ (forall code, In code (map StockCode df) ->
          exists d, getitem imap code = Ok d
                    /\ most_frequent d (map Description (stock_rows df code)))
    /\ (forall code, ~ In code (map StockCode df) ->
          getitem imap code = Raise KeyError).
Proof.
  destruct (item_map_defined df) as (imap & Hmap & Hkeys).
  exists imap; split; [exact Hmap |].
  split; [exact Hkeys |].
  split; [rewrite Hkeys; apply NoDup_np_unique |].
  split.
  - intros code Hcode.
    destruct (@getitem_total _ _ _ imap code) as [d Hd].
    + rewrite Hkeys; now apply In_np_unique.
    + exists d; split; [exact Hd |].
      apply (most_common_frequent argsort_ok).
      eapply item_map_getitem; eassumption.
  - intros code Hnot; apply getitem_missing.
    rewrite Hkeys, In_np_unique; exact Hnot.
Qed.

(** X2: a customer id that occurs on no row of the frame makes the call
    raise [IndexError] (from [value_counts().index[0]] on the customer's
    empty selection), whatever the other arguments and the endpoint. *)
Theorem unknown_customer_raises_IndexError (predict : Predictor F)
  (df : DataFrame) (customer_id n_recommendations n_ranks : Z) :
  ~ In customer_id (map CustomerID df) ->
  recommend predict df customer_id n_recommendations n_ranks = Raise IndexError.
Proof.
  intros Hnot; unfold get_recommendations, encode_candidates.
  destruct (item_map_defined df) as (imap & -> & _); simpl.
  unfold customer_country.
  replace (filter _ df) with (@nil row).
  - simpl; rewrite (most_common_nil argsort_ok); reflexivity.
  - symmetry; apply filter_nil_iff; intros r Hr.
    destruct (eqb_spec (CustomerID r) customer_id) as [Heq |]; [| reflexivity].
    exfalso; apply Hnot; rewrite <- Heq; now apply in_map.
Qed.

Lemma skipn_length_app {A} (a b : list A) : skipn (length a) (a ++ b) = b.
Proof. induction a; simpl; congruence. Qed.

Lemma row_sum_app (a b : list Z) : row_sum (a ++ b) = row_sum a + row_sum b.
Proof. induction a; simpl; lia. Qed.

(** The block of a known value of a feature without repeated categories
    holds exactly one 1. *)
Lemma onehot_sum_one {A} `{Eqb A} (cats : list A) (v : A) :
  NoDup cats -> In v cats -> row_sum (onehot cats v) = 1.
Proof.
  induction 1 as [| c t Hc Hnd IH]; [intros [] |].
  change (onehot (c :: t) v) with ((if eqb c v then 1 else 0) :: onehot t v).
  simpl; destruct (eqb_spec c v) as [-> | Hne]; intros Hin.
  - rewrite (onehot_unknown t v Hc), row_sum_repeat_zero; reflexivity.
  - destruct Hin as [Heq | Hin]; [congruence | now rewrite IH].
Qed.

Lemma inverse_row_onehot_row (enc : OneHotEncoder) (r : row) :
  inverse_row enc (onehot_row enc r)
  = (inverse_block (categories_StockCode enc)
       (onehot (categories_StockCode enc) (StockCode r)),
     inverse_block (categories_CustomerID enc)
       (onehot (categories_CustomerID enc) (CustomerID r)),
     inverse_block (categories_Country enc)
       (onehot (categories_Country enc) (Country r))).
Proof.
  unfold inverse_row, onehot_row.
  set (b1 := onehot (categories_StockCode enc) (StockCode r)).
  set (b2 := onehot (categories_CustomerID enc) (CustomerID r)).
  set (b3 := onehot (categories_Country enc) (Country r)).
  assert (H1 : length (categories_StockCode enc) = length b1)
    by (symmetry; apply onehot_length).
  assert (H2 : length (categories_CustomerID enc) = length b2)
    by (symmetry; apply onehot_length).
  rewrite H1, H2, firstn_length_app, skipn_length_app, firstn_length_app.
  rewrite <- length_app, app_assoc, skipn_length_app; reflexivity.
Qed.

(** The customer and the country of the inference rows are values of the
    frame. *)
Lemma customer_country_In (df : DataFrame) (customer_id : Z) (country : string) :
  customer_country argsort df customer_id = Ok country ->
  In customer_id (map CustomerID df) /\ In country (map Country df).
Proof.
  intros Hc; apply (most_common_spec argsort_ok) in Hc; destruct Hc as [Hin _].
  apply in_map_iff in Hin; destruct Hin as (r & <- & Hr).
  apply filter_In in Hr; destruct Hr as [Hr Heq].
  apply eqb_eq in Heq; rewrite <- Heq.
  split; now apply in_map.
Qed.

(** X3: the encoder round trip holds for all three encoded columns: the
    inverse transform of the encoded candidate matrix gives back, row by
    row, the stock code, the customer id and the country of the inference
    frame, none of them read as unknown. *)
Theorem inverse_transform_recovers_inference_rows (df : DataFrame)
  (customer_id n_ranks : Z) (st : Encoded F) :
  encode df customer_id n_ranks = Ok st ->
  enc_inverse_transform (enc_encoder st) (enc_onehot_output st)
  = Ok (map (fun r => (Some (StockCode r), Some (CustomerID r), Some (Country r)))
            (enc_inference st)).
Proof.
  intros Hst.
  pose proof Hst as Hitems; apply (encoded_items argsort_ok) in Hitems.
  destruct Hitems as (Hitems & _).
  apply encode_candidates_Ok in Hst.
  destruct Hst as (country & descriptions & _ & Hcountry & _ & Hfr & Hfit
                   & Htr & _).
  apply customer_country_In in Hcountry; destruct Hcountry as [Hcust Hco].
  apply (inference_frame_Ok F_of_indicator F_of_price vectorizer_fit) in Hfr.
  destruct Hfr as (_ & _ & _ & Hrows).
  apply enc_fit_Ok in Hfit; destruct Hfit as (_ & Hc1 & Hc2 & Hc3).
  apply enc_transform_Ok in Htr; destruct Htr as [_ ->].
  rewrite enc_inverse_transform_total, map_map; f_equal.
  apply map_ext_in; intros r Hr.
  rewrite Forall_forall in Hrows; destruct (Hrows r Hr) as (Hid & Hcountry & _).
  rewrite inverse_row_onehot_row, !inverse_block_onehot; [reflexivity | | |].
  - rewrite Hc3, Hcountry; now apply In_np_unique.
  - rewrite Hc2, Hid; now apply In_np_unique.
  - rewrite Hc1; apply In_np_unique.
    apply (top_n_items_In argsort_ok df n_ranks).
    rewrite <- Hitems; now apply in_map.
Qed.

(** X4: every row of the encoded candidate matrix has one column per fitted
    category, holds only 0 and 1, and sets exactly three columns: one for the
    stock code, one for the customer and one for the country; the matrix has
    one row per candidate. *)
Theorem encoded_rows_set_three_columns (df : DataFrame)
  (customer_id n_ranks : Z) (st : Encoded F) :
  encode df customer_id n_ranks = Ok st ->
  length (enc_onehot_output st) = length (top_n_items argsort df n_ranks)
  /\ Forall (fun x =>
       length x = n_features_out (enc_encoder st)
       /\ Forall (fun b => b = 0 \/ b = 1) x
       /\ row_sum x = 3) (enc_onehot_output st).
Proof.
  intros Hst.
  pose proof Hst as Hitems; apply (encoded_items argsort_ok) in Hitems.
  destruct Hitems as (Hitems & _).
  apply encode_candidates_Ok in Hst.
  destruct Hst as (country & descriptions & _ & Hcountry & _ & Hfr & Hfit
                   & Htr & _).
  apply customer_country_In in Hcountry; destruct Hcountry as [Hcust Hco].
  apply (inference_frame_Ok F_of_indicator F_of_price vectorizer_fit) in Hfr.
  destruct Hfr as (_ & _ & _ & Hrows).
  apply enc_fit_Ok in Hfit; destruct Hfit as (_ & Hc1 & Hc2 & Hc3).
  apply enc_transform_Ok in Htr; destruct Htr as [_ ->].
  split; [now rewrite length_map, <- Hitems, length_map |].
  rewrite Forall_map, Forall_forall; intros r Hr.
  rewrite Forall_forall in Hrows; destruct (Hrows r Hr) as (Hid & Hcountry & _).
  split; [apply onehot_row_length |].
  split.
  - unfold onehot_row; rewrite !Forall_app.
    repeat split; eapply Forall_impl; try apply onehot_range;
      intros b Hb; cbv beta in Hb; lia.
  - unfold onehot_row; rewrite !row_sum_app, !onehot_sum_one; [reflexivity | | | | | |].
    + rewrite Hc3; apply NoDup_np_unique.
    + rewrite Hc3, Hcountry; now apply In_np_unique.
    + rewrite Hc2; apply NoDup_np_unique.
    + rewrite Hc2, Hid; now apply In_np_unique.
    + rewrite Hc1; apply NoDup_np_unique.
    + rewrite Hc1; apply In_np_unique.
      apply (top_n_items_In argsort_ok df n_ranks).
      rewrite <- Hitems; now apply in_map.
Qed.

(** ** When the call succeeds *)

Lemma group_keys_nonempty (df : DataFrame) : df <> [] -> group_keys df <> [].
Proof.
  destruct df as [| r t]; [congruence | intros _ Hnil].
  assert (Hin : In (group_key r) (group_keys (r :: t)))
    by (apply In_group_keys; exists r; split; [now left | reflexivity]).
  rewrite Hnil in Hin; destruct Hin.
Qed.

Lemma top_n_items_length (df : DataFrame) (n_ranks : Z) :
  0 <= n_ranks ->
  length (top_n_items argsort df n_ranks)
  = Nat.min (Z.to_nat n_ranks) (length (group_keys df)).
Proof.
  intros Hn; destruct (top_n_columns argsort df n_ranks) as [-> _].
  rewrite length_map, slice_to_length by assumption.
  rewrite (Permutation_length (popular_items_perm argsort_ok df)).
  unfold customers_per_group; now rewrite length_map.
Qed.

Lemma top_n_prices_length (df : DataFrame) (n_ranks : Z) :
  length (top_n_prices argsort df n_ranks)
  = length (top_n_items argsort df n_ranks).
Proof.
  destruct (top_n_columns argsort df n_ranks) as [-> ->].
  now rewrite !length_map.
Qed.

(** The encoding step succeeds for a customer of the frame and a pool of at
    least one candidate, provided the vectoriser does. *)
Lemma encode_candidates_succeeds (df : DataFrame) (customer_id n_ranks : Z)
  (vectorizer : Vectorizer) :
  In customer_id (map CustomerID df) ->
  1 <= n_ranks ->
  vectorizer_fit (unique (map Description df)) = Ok vectorizer ->
  (forall docs, exists out,
      vectorizer_transform vectorizer docs = Ok out
      /\ length out = length docs) ->
  exists st,
    encode df customer_id n_ranks = Ok st
    /\ length (enc_inference st)
       = Nat.min (Z.to_nat n_ranks) (length (group_keys df))
    /\ length (enc_X_inference st) = length (enc_inference st).
Proof.
  intros Hcust Hranks Hfit Htr.
  assert (Hdf : df <> []) by (destruct df; [destruct Hcust | discriminate]).
  destruct (item_map_defined df) as (imap & Himap & Hkeys).
  destruct (@most_common_total argsort argsort_ok _ _
              (map Country (filter (fun r => eqb (CustomerID r) customer_id) df)))
    as [country Hcountry].
  { apply in_map_iff in Hcust; destruct Hcust as (r & Hid & Hr).
    assert (Hf : In r (filter (fun r => eqb (CustomerID r) customer_id) df))
      by (apply filter_In; split; [exact Hr | now apply eqb_eq]).
    destruct (filter _ df); [destruct Hf | discriminate]. }
  fold (customer_country argsort df customer_id) in Hcountry.
  set (items := top_n_items argsort df n_ranks).
  set (prices := top_n_prices argsort df n_ranks).
  destruct (@mapM_total _ _ (getitem imap) items) as [descs Hdescs].
  { intros code Hcode; apply getitem_total.
    rewrite Hkeys; apply In_np_unique.
    exact (top_n_items_In argsort_ok df n_ranks code Hcode). }
  assert (Hl1 : length items = length descs)
    by (symmetry; exact (mapM_Ok_length _ _ Hdescs)).
  assert (Hl2 : length descs = length prices)
    by (rewrite <- Hl1; symmetry; apply top_n_prices_length).
  assert (Hlen : length items
                 = Nat.min (Z.to_nat n_ranks) (length (group_keys df)))
    by (apply top_n_items_length; lia).
  assert (Hpos : (1 <= length items)%nat).
  { rewrite Hlen; pose proof (group_keys_nonempty Hdf) as Hg.
    destruct (group_keys df); [congruence | simpl; lia]. }
  set (fr := map (fun idp =>
                    {| StockCode := fst (fst idp);
                       Description := snd (fst idp);
                       CustomerID := customer_id;
                       Country := country;
                       UnitPrice := snd idp |})
                 (combine (combine items descs) prices)).
  assert (Hfr : inference_frame items descs customer_id country prices = Ok fr).
  { unfold inference_frame; rewrite Hl1, Hl2, !Nat.eqb_refl; reflexivity. }
  assert (Hfrlen : length fr = length items).
  { unfold fr; rewrite length_map, !length_combine; lia. }
  destruct (Htr (map Description fr)) as (tfidf & Htfidf & Htflen).
  rewrite length_map in Htflen.
  assert (Henc : exists enc, enc_fit df = Ok enc)
    by (destruct df; [congruence | simpl; eauto]).
  destruct Henc as [enc Henc].
  assert (Htrans : enc_transform enc fr = Ok (map (onehot_row enc) fr))
    by (destruct fr; [simpl in Hfrlen; lia | reflexivity]).
  assert (Hprice : unit_price_column F_of_price (map UnitPrice fr)
                   = Ok (map (fun p => [F_of_price p]) (map UnitPrice fr)))
    by (destruct fr; [simpl in Hfrlen; lia | reflexivity]).
  eexists; split; [| split].
  - unfold encode_candidates; fold items; fold prices.
    rewrite Himap; cbn [bind]. rewrite Hcountry; cbn [bind].
    rewrite Hdescs; cbn [bind]. rewrite Hfr; cbn [bind].
    rewrite Henc; cbn [bind]. rewrite Htrans; cbn [bind].
    rewrite Hfit; cbn [bind]. rewrite Htfidf; cbn [bind].
    rewrite Hprice; cbn [bind].
    unfold hstack; rewrite !length_map, Htflen, !Nat.eqb_refl; cbn [andb bind].
    reflexivity.
  - cbn [enc_inference]; lia.
  - cbn [enc_inference enc_X_inference].
    rewrite length_map, !length_combine, !length_map, Htflen; lia.
Qed.

(** The ranking step succeeds when the endpoint answers at most one score
    per candidate. *)
Lemma rank_candidates_succeeds (df : DataFrame) (customer_id n_ranks : Z)
  (st : Encoded F) (preds : list Z) (n : Z) :
  encode df customer_id n_ranks = Ok st ->
  (length preds <= length (enc_inference st))%nat ->
  exists recs, rank_candidates argsort st preds n = Ok recs.
Proof.
  intros Hst Hle.
  pose proof Hst as Hitems; apply (encoded_items argsort_ok) in Hitems.
  destruct Hitems as (Hitems & inverse & Hinv & Hcol).
  apply encode_candidates_Ok in Hst.
  destruct Hst as (country & descriptions & _ & _ & Hdesc & _).
  apply mapM_Ok_Forall2 in Hdesc.
  assert (Hget : forall r, In r (enc_inference st) ->
                   exists d, getitem (enc_item_map st) (StockCode r) = Ok d).
  { intros r Hr.
    assert (Hin : In (StockCode r) (top_n_items argsort df n_ranks))
      by (rewrite <- Hitems; now apply in_map).
    clear - Hdesc Hin; induction Hdesc as [| c d cs ds Hcd _ IH];
      [destruct Hin |].
    destruct Hin as [<- | Hin]; eauto. }
  unfold rank_candidates; rewrite Hinv; cbn [bind]; rewrite Hcol.
  destruct (@mapM_total _ _
              (fun i => match nth_error
                                 (map (fun r => Some (StockCode r))
                                      (enc_inference st)) i with
                        | Some x => Ok x
                        | None => Raise IndexError
                        end) (argsort preds)) as [taken Htaken].
  { intros i Hi; apply (argsort_bound argsort_ok) in Hi.
    destruct (nth_error _ i) as [x |] eqn:Hn; [eauto |].
    apply nth_error_None in Hn; rewrite length_map in Hn; lia. }
  unfold take_along_axis; rewrite Htaken; cbn [bind].
  apply mapM_total; intros x Hx.
  destruct (slice_rev_to_prefix (- n - 1) taken) as [rest Hrest].
  assert (Hin : In x taken)
    by (apply in_rev; rewrite Hrest; apply in_or_app; now left).
  apply mapM_Ok_Forall2 in Htaken.
  assert (Hall : Forall (fun x => exists r, In r (enc_inference st)
                                            /\ x = Some (StockCode r)) taken).
  { eapply Forall2_Forall_r; [| exact Htaken].
    intros i y _ Hy; cbv beta in Hy.
    rewrite nth_error_map in Hy.
    destruct (nth_error (enc_inference st) i) as [r |] eqn:Hr; simpl in Hy;
      [| discriminate].
    injection Hy as <-; exists r; split; [| reflexivity].
    eapply nth_error_In; eassumption. }
  rewrite Forall_forall in Hall; destruct (Hall x Hin) as (r & Hr & ->).
  destruct (Hget r Hr) as [d Hd]; simpl; rewrite Hd; simpl; eauto.
Qed.

(** X5: the call returns a list whenever the customer occurs in the frame,
    [n_ranks >= 1], the vectoriser accepts the frame's descriptions and yields
    one row per description, and the endpoint answers one score per row,
    whatever [n_recommendations] is.  With [L = min n_ranks G] candidates,
    [G] being the number of distinct (stock code, unit price) pairs, the list
    has [min n_recommendations L] entries for [n_recommendations >= 0] and
    [L - m] entries (none when [m >= L]) for [n_recommendations = -m < 0]. *)
Theorem get_recommendations_succeeds (predict : Predictor F)
  (df : DataFrame) (customer_id n_recommendations n_ranks : Z)
  (vectorizer : Vectorizer) :
  In customer_id (map CustomerID df) ->
  1 <= n_ranks ->
  vectorizer_fit (unique (map Description df)) = Ok vectorizer ->
  (forall docs, exists out,
      vectorizer_transform vectorizer docs = Ok out
      /\ length out = length docs) ->
  (forall X, exists preds, predict X = Ok preds /\ length preds = length X) ->
  exists recs,
    recommend predict df customer_id n_recommendations n_ranks = Ok recs
    /\ (0 <= n_recommendations ->
        length recs
        = Nat.min (Z.to_nat n_recommendations)
            (Nat.min (Z.to_nat n_ranks) (length (group_keys df))))
    /\ (n_recommendations < 0 ->
        length recs
        = (Nat.min (Z.to_nat n_ranks) (length (group_keys df))
           - Z.to_nat (- n_recommendations))%nat).
Proof.
  intros Hcust Hranks Hfit Htr Hpred.
  destruct (@encode_candidates_succeeds df customer_id n_ranks vectorizer
              Hcust Hranks Hfit Htr) as (st & Hst & Hlen & HX).
  destruct (Hpred (enc_X_inference st)) as (preds & Hp & Hplen).
  destruct (@rank_candidates_succeeds df customer_id n_ranks st preds
              n_recommendations Hst) as [recs Hrank]; [lia |].
  pose proof (rank_candidates_Ok argsort_ok F_of_indicator F_of_price
                vectorizer_fit vectorizer_transform df customer_id n_ranks
                preds n_recommendations Hst Hrank) as Hf.
  exists recs; split; [| split].
  - unfold get_recommendations; rewrite Hst; cbn [bind].
    rewrite Hp; cbn [bind]; exact Hrank.
  - intros Hn.
    rewrite <- (Forall2_length Hf), slice_rev_to_length by assumption.
    rewrite (argsort_length argsort_ok); lia.
  - intros Hn.
    rewrite <- (Forall2_length Hf), slice_rev_to_negative by assumption.
    rewrite length_firstn, length_rev, (argsort_length argsort_ok); lia.
Qed.

(** X6: an endpoint that answers more scores than there are candidate rows
    makes the call raise [IndexError] (from [take_along_axis]); surplus
    scores are never ranked. *)
Theorem surplus_predictions_raise_IndexError (predict : Predictor F)
  (df : DataFrame) (customer_id n_recommendations n_ranks : Z)
  (st : Encoded F) (preds : list Z) :
  encode df customer_id n_ranks = Ok st ->
  predict (enc_X_inference st) = Ok preds ->
  (length (enc_inference st) < length preds)%nat ->
  recommend predict df customer_id n_recommendations n_ranks = Raise IndexError.
Proof.
  intros Hst Hp Hlt.
  pose proof Hst as Hitems; apply (encoded_items argsort_ok) in Hitems.
  destruct Hitems as (_ & inverse & Hinv & Hcol).
  unfold get_recommendations; rewrite Hst; cbn [bind].
  rewrite Hp; cbn [bind].
  unfold rank_candidates; rewrite Hinv; cbn [bind]; rewrite Hcol.
  unfold take_along_axis; rewrite (@mapM_raises _ _ _ IndexError);
    [reflexivity | |].
  - intros i _; destruct (nth_error _ i); eauto.
  - exists (length preds - 1)%nat; split.
    + apply (argsort_bound argsort_ok); lia.
    + replace (nth_error _ _) with (@None (option string)); [reflexivity |].
      symmetry; apply nth_error_None; rewrite length_map; lia.
Qed.

(** ** The requested counts *)

(** X7: asking for fewer recommendations gives an initial segment of the
    longer list: if the call with [n'] returns [recs'], the call with
    [0 <= n <= n'] on the same arguments returns the first [n] entries of
    [recs']. *)
Theorem fewer_recommendations_are_a_prefix (predict : Predictor F)
  (df : DataFrame) (customer_id n n' n_ranks : Z)
  (recs' : list (string * string)) :
  0 <= n <= n' ->
  recommend predict df customer_id n' n_ranks = Ok recs' ->
  recommend predict df customer_id n n_ranks = Ok (firstn (Z.to_nat n) recs').
Proof.
  intros Hn H; apply get_recommendations_Ok in H.
  destruct H as (st & preds & Hst & Hp & Hrank).
  unfold get_recommendations; rewrite Hst; cbn [bind].
  rewrite Hp; cbn [bind].
  unfold rank_candidates in *.
  destruct (enc_inverse_transform _ _) as [inverse | e]; cbn [bind] in *;
    [| discriminate].
  destruct (take_along_axis _ _) as [taken | e]; cbn [bind] in *;
    [| discriminate].
  rewrite slice_rev_to_firstn in * by lia.
  replace (firstn (Z.to_nat n) (rev taken))
    with (firstn (Z.to_nat n) (firstn (Z.to_nat n') (rev taken))).
  - now apply mapM_firstn.
  - rewrite firstn_firstn; f_equal; lia.
Qed.

(** X8: [n_recommendations = 0] returns the empty list, and a negative
    [n_recommendations = -m] is no error: the slice [[: m - 1 : -1]] keeps
    the descending ranking without its [m] lowest-scored positions. *)
Theorem nonpositive_n_recommendations (predict : Predictor F)
  (df : DataFrame) (customer_id n_recommendations n_ranks : Z)
  (recs : list (string * string)) :
  recommend predict df customer_id n_recommendations n_ranks = Ok recs ->
  n_recommendations <= 0 ->
  (n_recommendations = 0 -> recs = [])
  /\ (n_recommendations < 0 ->
      exists st preds,
        encode df customer_id n_ranks = Ok st
        /\ predict (enc_X_inference st) = Ok preds
        /\ Forall2 (recommends st)
             (firstn (length preds - Z.to_nat (- n_recommendations))
                     (rev (argsort preds))) recs
        /\ length recs
           = (length preds - Z.to_nat (- n_recommendations))%nat).
Proof.
  intros H Hn; apply get_recommendations_Ok in H.
  destruct H as (st & preds & Hst & Hp & Hrank).
  pose proof (rank_candidates_Ok argsort_ok F_of_indicator F_of_price
                vectorizer_fit vectorizer_transform df customer_id n_ranks
                preds n_recommendations Hst Hrank) as Hf.
  split.
  - intros ->.
    apply Forall2_length in Hf.
    rewrite slice_rev_to_length in Hf by lia.
    destruct recs; [reflexivity | discriminate].
  - intros Hneg; exists st, preds.
    rewrite slice_rev_to_negative, (argsort_length argsort_ok) in Hf by lia.
    repeat split; try assumption.
    rewrite <- (Forall2_length Hf), length_firstn, length_rev.
    rewrite (argsort_length argsort_ok); lia.
Qed.

(** X9: the candidate pool holds no (stock code, unit price) pair twice,
    although a stock code may occur once per price. *)
Theorem candidate_pool_pairs_distinct (df : DataFrame) (n_ranks : Z) :
  NoDup (combine (top_n_items argsort df n_ranks)
                 (top_n_prices argsort df n_ranks)).
Proof.
  destruct (top_n_columns argsort df n_ranks) as [-> ->].
  rewrite combine_map_same.
  assert (Hnd : NoDup (map fst (popular_items argsort df))).
  { eapply Permutation_NoDup.
    - symmetry; apply Permutation_map, (popular_items_perm argsort_ok).
    - unfold customers_per_group; rewrite map_map; simpl.
      rewrite map_id; apply NoDup_np_unique. }
  destruct (slice_to_prefix n_ranks (popular_items argsort df)) as [rest Hrest].
  rewrite Hrest, map_app in Hnd; apply NoDup_app_remove_r in Hnd.
  erewrite map_ext; [exact Hnd |].
  intros [[code price] c]; reflexivity.
Qed.

(** X11: a negative pool size [n_ranks = -m] is no error either:
    [iloc[:-m]] keeps all groups but the [m] least popular ones. *)
Theorem negative_n_ranks_drops_least_popular (df : DataFrame) (n_ranks : Z) :
  n_ranks < 0 ->
  top_n_items argsort df n_ranks
  = map (fun g => fst (fst g))
        (firstn (length (group_keys df) - Z.to_nat (- n_ranks))
                (popular_items argsort df))
  /\ length (top_n_items argsort df n_ranks)
     = (length (group_keys df) - Z.to_nat (- n_ranks))%nat.
Proof.
  intros Hn.
  assert (Hlen : length (popular_items argsort df) = length (group_keys df)).
  { rewrite (Permutation_length (popular_items_perm argsort_ok df)).
    unfold customers_per_group; now rewrite length_map. }
  destruct (top_n_columns argsort df n_ranks) as [-> _].
  rewrite slice_to_negative, Hlen by assumption.
  split; [reflexivity |].
  rewrite length_map, length_firstn; lia.
Qed.

End RecommenderEdges.

(** X10: the pool for a smaller size is an initial segment of the pool for a
    larger one, items and prices alike, whatever the sort does with ties. *)
Theorem candidate_pool_is_a_prefix (argsort : list Z -> list nat)
  (df : DataFrame) (n_ranks n_ranks' : Z) :
  0 <= n_ranks <= n_ranks' ->
  top_n_items argsort df n_ranks
  = firstn (Z.to_nat n_ranks) (top_n_items argsort df n_ranks')
  /\ top_n_prices argsort df n_ranks
     = firstn (Z.to_nat n_ranks) (top_n_prices argsort df n_ranks').
Proof.
  intros Hn; unfold top_n_items, top_n_prices.
  rewrite !slice_to_firstn, !firstn_firstn by lia.
  split; f_equal; lia.
Qed.

(** ** The top customer *)

Section TopCustomerFacts.

Variable argsort : list Z -> list nat.
Hypothesis argsort_ok : argsort_spec argsort.

Variable times : Z -> Z -> Z.
Variable column_sum : list Z -> Z.
Variable no_rows_error : exn.

Local Abbreviation top := (top_customer argsort times column_sum no_rows_error).
Local Abbreviation amounts := (amount_per_customer times column_sum).
Local Abbreviation total :=
  (fun tx c => column_sum (map (invoice_amount times) (customer_lines tx c))).

Lemma top_customer_Ok (tx : list transaction) (c : Z) :
  top tx = Ok c ->
  In c (map customer_of tx)
  /\ forall c', In c' (map customer_of tx) -> total tx c' <= total tx c.
Proof.
  unfold top_customer; destruct tx as [| t0 tx']; [discriminate |].
  cbv iota; remember (t0 :: tx') as tx eqn:Htx.
  destruct (sort_values_desc argsort (amounts tx)) as [| g t] eqn:Hs;
    simpl; [discriminate |].
  intros Hc; injection Hc as <-.
  apply (sort_values_desc_head argsort_ok) in Hs; destruct Hs as [Hg Hmax].
  unfold amount_per_customer in Hg; apply in_map_iff in Hg.
  destruct Hg as (c & <- & Hc); cbn [fst snd] in *.
  split; [now apply (proj1 (In_np_unique _ _)) |].
  intros c' Hc'.
  apply (Hmax (c', total tx c')).
  unfold amount_per_customer; apply in_map_iff; exists c'.
  split; [reflexivity | now apply In_np_unique].
Qed.

Lemma top_customer_defined (tx : list transaction) :
  tx <> [] -> exists c, top tx = Ok c.
Proof.
  intros Hne; unfold top_customer.
  destruct tx as [| t0 tx']; [congruence |].
  destruct (sort_values_desc argsort (amounts (t0 :: tx'))) as [| g t] eqn:Hs;
    simpl; [| eauto].
  pose proof (sort_values_desc_perm argsort_ok (amounts (t0 :: tx'))) as Hp.
  rewrite Hs in Hp; apply Permutation_nil in Hp.
  assert (Hin : In (customer_of t0) (np_unique (map customer_of (t0 :: tx'))))
    by (apply In_np_unique; now left).
  unfold amount_per_customer in Hp; apply map_eq_nil in Hp.
  rewrite Hp in Hin; destruct Hin.
Qed.


Variable F : Type.
Variable F_of_indicator : Z -> F.
Variable F_of_price : Z -> F.
Variable Vectorizer : Type.
Variable vectorizer_fit : list string -> result Vectorizer.
Variable vectorizer_transform : Vectorizer -> list string -> result (list (list F)).

(** X13: cells 42 and 44 compose: on a frame with at least one line, with a
    vectoriser and an endpoint that answer row for row, the call for the top
    customer returns a list (its country lookup cannot fail, the customer
    being taken from the frame) of [min 5 (min 100 G)] entries. *)
Theorem top_customer_recommendations_succeed (predict : Predictor F)
  (tx : list transaction) (vectorizer : Vectorizer) :
  tx <> [] ->
  vectorizer_fit (unique (map Description (map sold tx))) = Ok vectorizer ->
  (forall docs, exists out,
      vectorizer_transform vectorizer docs = Ok out
      /\ length out = length docs) ->
  (forall X, exists preds, predict X = Ok preds /\ length preds = length X) ->
  exists customer recs,
    top tx = Ok customer
    /\ top_customer_recommendations argsort times column_sum no_rows_error
         F_of_indicator F_of_price vectorizer_fit vectorizer_transform
         predict tx = Ok recs
    /\ length recs
       = Nat.min 5 (Nat.min 100 (length (group_keys (map sold tx)))).
Proof.
  intros Hne Hfit Htr Hpred.
  destruct (top_customer_defined Hne) as [customer Hc].
  pose proof (top_customer_Ok _ Hc) as [Hin _].
  assert (Hcust : In customer (map CustomerID (map sold tx)))
    by (rewrite map_map; exact Hin).
  destruct (@encode_candidates_succeeds argsort argsort_ok F F_of_indicator
              F_of_price Vectorizer vectorizer_fit vectorizer_transform
              (map sold tx) customer 100 vectorizer Hcust ltac:(lia) Hfit Htr)
    as (st & Hst & Hlen & HX).
  destruct (Hpred (enc_X_inference st)) as (preds & Hp & Hplen).
  destruct (@rank_candidates_succeeds argsort argsort_ok F F_of_indicator
              F_of_price Vectorizer vectorizer_fit vectorizer_transform
              (map sold tx) customer 100 st preds 5 Hst) as [recs Hrank];
    [lia |].
  exists customer, recs; split; [exact Hc |]; split.
  - unfold top_customer_recommendations, get_recommendations.
    rewrite Hc; cbn [bind]. rewrite Hst; cbn [bind].
    rewrite Hp; cbn [bind]; exact Hrank.
  - pose proof (rank_candidates_Ok argsort_ok F_of_indicator F_of_price
                  vectorizer_fit vectorizer_transform (map sold tx) customer
                  100 preds 5 Hst Hrank) as Hf.
    rewrite <- (Forall2_length Hf), slice_rev_to_length by lia.
    rewrite (argsort_length argsort_ok); lia.
Qed.

End TopCustomerFacts.

(** ** The metrics report *)

Module TrainingMetricsFacts.

Import TrainingMetrics.

Lemma getitem_dict_update {V} (d : list (string * V)) (key : string) (value : V)
  (k : string) :
  getitem (dict_update d key value) k
  = if String.eqb key k then Ok value else getitem d k.
Proof.
  induction d as [| [k0 v0] t IH]; simpl.
  - destruct (String.eqb_spec key k); reflexivity.
  - destruct (String.eqb_spec k0 key) as [-> | Hne]; simpl.
    + destruct (String.eqb_spec key k); reflexivity.
    + destruct (String.eqb_spec k0 k) as [-> | Hk]; [| exact IH].
      destruct (String.eqb_spec key k); [congruence | reflexivity].
Qed.

Lemma keys_dict_update {V} (d : list (string * V)) (key : string) (value : V) :
  (forall k, In k (map fst (dict_update d key value))
             <-> k = key \/ In k (map fst d))
  /\ (NoDup (map fst d) -> NoDup (map fst (dict_update d key value))).
Proof.
  induction d as [| [k0 v0] t [IHin IHnd]]; simpl.
  - split; [intuition | intros _; repeat constructor; intros []].
  - destruct (String.eqb_spec k0 key) as [-> | Hne]; simpl.
    + split; [intuition | auto].
    + split.
      * intros k; rewrite IHin; intuition.
      * intros Hnd; inversion Hnd as [| ? ? Hk0 Ht]; subst.
        constructor; [| now apply IHnd].
        rewrite IHin; intros [Heq | Hin]; [congruence | contradiction].
Qed.

Lemma report_unchanged_by_other_names {V} (l : list (metric V))
  (d : list (string * V)) (k : string) :
  ~ In k (map MetricName l) ->
  getitem (fold_left (fun report m =>
                        dict_update report (MetricName m) (Value m)) l d) k
  = getitem d k.
Proof.
  revert d; induction l as [| m t IH]; intros d Hnot; simpl; [reflexivity |].
  rewrite IH, getitem_dict_update by (simpl in Hnot; tauto).
  destruct (String.eqb_spec (MetricName m) k) as [Heq | Hne];
    [simpl in Hnot; tauto | reflexivity].
Qed.

Lemma report_keys {V} (l : list (metric V)) (d : list (string * V)) :
  let report := fold_left (fun report m =>
                             dict_update report (MetricName m) (Value m)) l d in
  (forall k, In k (map fst report)
             <-> In k (map fst d) \/ In k (map MetricName l))
  /\ (NoDup (map fst d) -> NoDup (map fst report)).
Proof.
  revert d; induction l as [| m t IH]; intros d; simpl.
  - split; [intuition | auto].
  - destruct (IH (dict_update d (MetricName m) (Value m))) as [Hin Hnd].
    destruct (keys_dict_update d (MetricName m) (Value m)) as [Hin1 Hnd1].
    split.
    + intros k; rewrite Hin, Hin1; intuition.
    + intros H; auto.
Qed.

(** X14: the metrics report holds exactly one entry per distinct metric
    name of [FinalMetricDataList]; when a name occurs several times the
    value of its last occurrence wins; looking up a name that does not occur
    raises [KeyError]. *)
Theorem regression_metrics_keep_last_value {V} (l : list (metric V)) :
  NoDup (map fst (regression_metrics l))
  /\ (forall name, In name (map fst (regression_metrics l))
                   <-> In name (map MetricName l))
  /\ (forall l1 m l2,
        l = l1 ++ m :: l2 ->
        ~ In (MetricName m) (map MetricName l2) ->
        getitem (regression_metrics l) (MetricName m) = Ok (Value m))
  /\ (forall name, ~ In name (map MetricName l) ->
        getitem (regression_metrics l) name = Raise KeyError).
Proof.
  unfold regression_metrics.
  destruct (report_keys l []) as [Hin Hnd].
  split; [apply Hnd; constructor |].
  split; [intros name; rewrite Hin; simpl; tauto |].
  split.
  - intros l1 m l2 -> Hlast.
    rewrite fold_left_app; simpl.
    rewrite report_unchanged_by_other_names by assumption.
    rewrite getitem_dict_update, String.eqb_refl; reflexivity.
  - intros name Hnot.
    now rewrite report_unchanged_by_other_names.
Qed.

End TrainingMetricsFacts.

(** ** Runs of the polling cell *)

Module ModelPackagePollingTraceFacts.

Import ModelPackagePolling.
Import ModelPackagePollingTrace.

Lemma slept_app (tr tr' : list event) : slept (tr ++ tr') = slept tr + slept tr'.
Proof. induction tr as [| [| s | l] t IH]; simpl; lia. Qed.

Lemma described_app (tr tr' : list event) :
  described (tr ++ tr') = (described tr + described tr')%nat.
Proof. induction tr as [| [| s | l] t IH]; simpl; lia. Qed.

Section Runs.

Variable describe_model_package : nat -> result string.

(** Every iteration sleeps five seconds and calls the service once. *)
Lemma loop_cost (fuel : nat) (st : state) :
  let st' := final (loop describe_model_package fuel st) in
  (calls st <= calls st')%nat
  /\ slept (trace st')
     = slept (trace st) + 5 * (Z.of_nat (calls st') - Z.of_nat (calls st))
  /\ described (trace st')
     = (described (trace st) + (calls st' - calls st))%nat.
Proof.
  revert st; induction fuel as [| fuel IH]; intros st; cbv zeta; cbn [loop].
  - destruct (terminal (mp_status st)); cbn [final];
      (split; [| split]; lia).
  - destruct (terminal (mp_status st)); cbn [final];
      [split; [| split]; lia |].
    destruct (describe_model_package (calls st)) as [status | e]; cbn [final].
    + specialize (IH (observe (sleep_and_call st) status)); cbv zeta in IH.
      cbn [observe sleep_and_call calls trace] in IH.
      rewrite !slept_app, !described_app in IH; cbn [slept described] in IH.
      destruct IH as (Hle & Hs & Hd); split; [| split]; lia.
    + cbn [sleep_and_call calls trace].
      rewrite slept_app, described_app; cbn [slept described].
      split; [| split]; lia.
Qed.

(** X15: however the cell ends (exit, exception or still polling), its
    trace holds one service call per counted call and five seconds of sleep
    for every call after the first. *)
Theorem polling_cell_cost (fuel : nat) :
  let st := final (cell describe_model_package fuel) in
  described (trace st) = calls st
  /\ slept (trace st) = 5 * (Z.of_nat (calls st) - 1).
Proof.
  unfold cell; cbv zeta.
  destruct (describe_model_package O) as [status | e];
    [| cbn [final calls trace slept described]; split; lia].
  pose proof (loop_cost fuel
                {| mp_status := status; calls := 1; trace := [Describe] |})
    as Hcost; cbv zeta in Hcost.
  cbn [calls trace slept described] in Hcost.
  destruct (loop describe_model_package fuel _) as [st | e st | st];
    cbn [final observe calls trace] in *;
    rewrite ?slept_app, ?described_app; cbn [slept described];
    destruct Hcost as (Hle & Hs & Hd); split; lia.
Qed.

Lemma loop_exits_with_fuel (n k : nat) (st : state) :
  terminal (mp_status st) = false ->
  (forall j, (j < n)%nat ->
     exists status, describe_model_package (calls st + j) = Ok status
                    /\ terminal status = false) ->
  (exists status, describe_model_package (calls st + n) = Ok status
                  /\ terminal status = true) ->
  exists st', loop describe_model_package (S n + k) st = Exited st'
              /\ calls st' = (calls st + S n)%nat
              /\ describe_model_package (calls st + n) = Ok (mp_status st').
Proof.
  revert st; induction n as [| n IH]; intros st Hnt Hpending Hdone.
  - destruct Hdone as (status & Hd & Ht).
    pose proof Hd as Hd'; rewrite Nat.add_0_r in Hd'.
    eexists; split; [| split].
    + simpl; rewrite Hnt, Hd'.
      destruct k; simpl; rewrite Ht; reflexivity.
    + simpl; lia.
    + simpl; exact Hd.
  - destruct (Hpending O ltac:(lia)) as (status & Hd & Ht).
    rewrite Nat.add_0_r in Hd.
    destruct (IH (observe (sleep_and_call st) status)) as (st' & Hl & Hc & Hs).
    + exact Ht.
    + intros j Hj; simpl.
      destruct (Hpending (S j) ltac:(lia)) as (s & Hs & Hts).
      exists s; split; [| exact Hts].
      now rewrite <- Nat.add_succ_r.
    + destruct Hdone as (s & Hs & Hts); simpl.
      exists s; split; [| exact Hts].
      now rewrite <- Nat.add_succ_r.
    + exists st'; split; [| split].
      * change (loop describe_model_package (S (S n) + k) st)
          with (if terminal (mp_status st) then Exited st
                else match describe_model_package (calls st) with
                     | Raise e => Raised e (sleep_and_call st)
                     | Ok status0 =>
                         loop describe_model_package (S n + k)
                              (observe (sleep_and_call st) status0)
                     end).
        now rewrite Hnt, Hd.
      * simpl in Hc; lia.
      * simpl in Hs; now rewrite <- Nat.add_succ_r in Hs.
Qed.

Lemma loop_raises_with_fuel (n k : nat) (st : state) (e : exn) :
  terminal (mp_status st) = false ->
  (forall j, (j < n)%nat ->
     exists status, describe_model_package (calls st + j) = Ok status
                    /\ terminal status = false) ->
  describe_model_package (calls st + n) = Raise e ->
  exists st', loop describe_model_package (S n + k) st = Raised e st'
              /\ calls st' = (calls st + S n)%nat.
Proof.
  revert st; induction n as [| n IH]; intros st Hnt Hpending Hraise.
  - rewrite Nat.add_0_r in Hraise.
    eexists; split; [simpl; rewrite Hnt, Hraise; reflexivity | simpl; lia].
  - destruct (Hpending O ltac:(lia)) as (status & Hd & Ht).
    rewrite Nat.add_0_r in Hd.
    destruct (IH (observe (sleep_and_call st) status)) as (st' & Hl & Hc).
    + exact Ht.
    + intros j Hj; simpl.
      destruct (Hpending (S j) ltac:(lia)) as (s & Hs & Hts).
      exists s; split; [| exact Hts].
      now rewrite <- Nat.add_succ_r.
    + simpl; now rewrite <- Nat.add_succ_r.
    + exists st'; split.
      * change (loop describe_model_package (S (S n) + k) st)
          with (if terminal (mp_status st) then Exited st
                else match describe_model_package (calls st) with
                     | Raise e0 => Raised e0 (sleep_and_call st)
                     | Ok status0 =>
                         loop describe_model_package (S n + k)
                              (observe (sleep_and_call st) status0)
                     end).
        now rewrite Hnt, Hd.
      * simpl in Hc; lia.
Qed.

(** X16: the cell terminates as soon as the service answers a terminal
    status: if calls [0 .. n-1] are answered with non-terminal statuses and
    call [n] with ["Completed"] or ["Failed"], the cell exits after exactly
    [n + 1] calls and [5 n] seconds of sleep, holding the status of call [n]
    ([n] iterations of fuel suffice). *)
Theorem polling_cell_exits_at_first_terminal_status (n fuel : nat) :
  (forall j, (j < n)%nat ->
     exists status, describe_model_package j = Ok status
                    /\ terminal status = false) ->
  (exists status, describe_model_package n = Ok status
                  /\ terminal status = true) ->
  (n <= fuel)%nat ->
  exists st,
    cell describe_model_package fuel = Exited st
    /\ calls st = S n
    /\ describe_model_package n = Ok (mp_status st)
    /\ terminal (mp_status st) = true
    /\ slept (trace st) = 5 * Z.of_nat n.
Proof.
  intros Hpending (final_status & Hdone & Hterm) Hfuel.
  assert (Hexit : exists st, cell describe_model_package fuel = Exited st
                             /\ calls st = S n
                             /\ describe_model_package n = Ok (mp_status st)
                             /\ slept (trace st) = 5 * Z.of_nat n).
  { unfold cell; destruct n as [| n].
    - rewrite Hdone.
      destruct fuel; simpl; rewrite Hterm; eexists; repeat split;
        simpl; assumption.
    - destruct (Hpending O ltac:(lia)) as (status & Hd & Ht); rewrite Hd.
      set (st0 := {| mp_status := status; calls := 1; trace := [Describe] |}).
      destruct (@loop_exits_with_fuel n (fuel - S n) st0)
        as (st' & Hl & Hc & Hs).
      + exact Ht.
      + intros j Hj; simpl; apply Hpending; lia.
      + simpl; eauto.
      + replace (S n + (fuel - S n))%nat with fuel in Hl by lia.
        pose proof (loop_cost fuel st0) as Hcost; cbv zeta in Hcost.
        rewrite Hl in Hcost.
        cbn [final st0 calls trace slept Nat.add] in Hcost, Hc, Hs.
        destruct Hcost as (_ & Hslept & _).
        rewrite Hl; eexists; split; [reflexivity |].
        cbn [observe calls trace mp_status]; rewrite slept_app.
        cbn [slept]; repeat split; try assumption; lia. }
  destruct Hexit as (st & Hcell & Hcalls & Hstatus & Hslept).
  exists st; repeat split; try assumption.
  rewrite Hdone in Hstatus; injection Hstatus as <-; exact Hterm.
Qed.

(** X17: an exception of the service client is not swallowed: if calls
    [0 .. n-1] are answered with non-terminal statuses and call [n] raises
    [e], the cell ends with [e] after [n + 1] calls and does not exit
    normally. *)
Theorem polling_cell_propagates_exception (n fuel : nat) (e : exn) :
  (forall j, (j < n)%nat ->
     exists status, describe_model_package j = Ok status
                    /\ terminal status = false) ->
  describe_model_package n = Raise e ->
  (n <= fuel)%nat ->
  exists st,
    cell describe_model_package fuel = Raised e st /\ calls st = S n.
Proof.
  intros Hpending Hraise Hfuel.
  unfold cell; destruct n as [| n].
  - rewrite Hraise; eexists; split; reflexivity.
  - destruct (Hpending O ltac:(lia)) as (status & Hd & Ht); rewrite Hd.
    set (st0 := {| mp_status := status; calls := 1; trace := [Describe] |}).
    destruct (@loop_raises_with_fuel n (fuel - S n) st0 e)
      as (st' & Hl & Hc).
    + exact Ht.
    + intros j Hj; simpl; apply Hpending; lia.
    + exact Hraise.
    + replace (S n + (fuel - S n))%nat with fuel in Hl by lia.
      rewrite Hl; exists st'; split; [reflexivity | exact Hc].
Qed.

End Runs.

End ModelPackagePollingTraceFacts.

(** ** Instances of the further properties *)

Lemma item_map_total_keyed_by_stock_code_witness :
  argsort_spec stable_argsort
  /\ exists imap,
      item_map stable_argsort sample_df = Ok imap
      /\ map fst imap = ["A"; "B"; "C"]
      /\ getitem imap "Z" = Raise KeyError.
Proof.
  split; [exact stable_argsort_ok |].
  destruct (@item_map_total_keyed_by_stock_code stable_argsort
              stable_argsort_ok sample_df)
    as (imap & Hmap & Hkeys & _ & _ & Hmiss).
  exists imap; split; [exact Hmap |].
  split; [exact Hkeys |].
  apply Hmiss; simpl; intuition discriminate.
Defined.

Lemma unknown_customer_raises_IndexError_witness :
  ~ In 9 (map CustomerID sample_df)
  /\ sample_recommend price_score sample_df 9 5 100 = Raise IndexError.
Proof.
  assert (Hnot : ~ In 9 (map CustomerID sample_df))
    by (simpl; intuition discriminate).
  split; [exact Hnot |].
  exact (@unknown_customer_raises_IndexError stable_argsort stable_argsort_ok
           Z (fun z => z) (fun z => z) _ whole_description_fit
           whole_description_transform price_score sample_df 9 5 100 Hnot).
Defined.

Lemma inverse_transform_recovers_inference_rows_witness :
  exists st,
    sample_encode sample_df 1 2 = Ok st
    /\ enc_inverse_transform (enc_encoder st) (enc_onehot_output st)
       = Ok [(Some "C", Some 1, Some "UK"); (Some "A", Some 1, Some "UK")].
Proof.
  eexists; split; [reflexivity |].
  exact (@inverse_transform_recovers_inference_rows stable_argsort
           stable_argsort_ok Z (fun z => z) (fun z => z) _
           whole_description_fit whole_description_transform
           sample_df 1 2 _ eq_refl).
Defined.

Lemma encoded_rows_set_three_columns_witness :
  exists st,
    sample_encode sample_df 1 2 = Ok st
    /\ length (enc_onehot_output st) = 2%nat
    /\ Forall (fun x => row_sum x = 3) (enc_onehot_output st).
Proof.
  eexists; split; [reflexivity |].
  destruct (@encoded_rows_set_three_columns stable_argsort
              stable_argsort_ok Z (fun z => z) (fun z => z) _
              whole_description_fit whole_description_transform
              sample_df 1 2 _ eq_refl) as [Hlen Hrows].
  split; [exact Hlen |].
  eapply Forall_impl; [| exact Hrows].
  intros x (_ & _ & Hsum); exact Hsum.
Defined.

Lemma whole_description_rows (vocabulary docs : list string) :
  exists out, whole_description_transform vocabulary docs = Ok out
              /\ length out = length docs.
Proof. eexists; split; [reflexivity | apply length_map]. Qed.

Lemma price_score_rows (X : list (list Z)) :
  exists preds, price_score X = Ok preds /\ length preds = length X.
Proof. eexists; split; [reflexivity | apply length_map]. Qed.

Lemma get_recommendations_succeeds_witness :
  In 1 (map CustomerID sample_df)
  /\ 1 <= 100
  /\ (exists recs,
        sample_recommend price_score sample_df 1 3 100 = Ok recs
        /\ length recs = 3%nat)
  /\ (exists recs,
        sample_recommend price_score sample_df 1 (-1) 100 = Ok recs
        /\ length recs = 3%nat).
Proof.
  assert (Hin : In 1 (map CustomerID sample_df)) by (simpl; auto).
  split; [exact Hin |].
  split; [lia |].
  split.
  - destruct (@get_recommendations_succeeds stable_argsort stable_argsort_ok
                Z (fun z => z) (fun z => z) _ whole_description_fit
                whole_description_transform price_score sample_df 1 3 100
                (unique (map Description sample_df))
                Hin ltac:(lia) eq_refl
                (whole_description_rows _) price_score_rows)
      as (recs & Hrecs & Hlen & _).
    exists recs; split; [exact Hrecs | exact (Hlen ltac:(lia))].
  - destruct (@get_recommendations_succeeds stable_argsort stable_argsort_ok
                Z (fun z => z) (fun z => z) _ whole_description_fit
                whole_description_transform price_score sample_df 1 (-1) 100
                (unique (map Description sample_df))
                Hin ltac:(lia) eq_refl
                (whole_description_rows _) price_score_rows)
      as (recs & Hrecs & _ & Hlen).
    exists recs; split; [exact Hrecs | exact (Hlen ltac:(lia))].
Defined.

Lemma surplus_predictions_raise_IndexError_witness :
  exists st preds,
    sample_encode sample_df 1 2 = Ok st
    /\ one_score_too_many (enc_X_inference st) = Ok preds
    /\ (length (enc_inference st) < length preds)%nat
    /\ sample_recommend one_score_too_many sample_df 1 5 2 = Raise IndexError.
Proof.
  eexists; eexists.
  split; [reflexivity |].
  split; [reflexivity |].
  assert (Hlt : (2 < 3)%nat) by lia.
  split; [exact Hlt |].
  exact (@surplus_predictions_raise_IndexError stable_argsort
           stable_argsort_ok Z (fun z => z) (fun z => z) _
           whole_description_fit whole_description_transform
           one_score_too_many sample_df 1 5 2 _ _ eq_refl eq_refl Hlt).
Defined.

Lemma fewer_recommendations_are_a_prefix_witness :
  0 <= 2 <= 5
  /\ sample_recommend price_score sample_df 1 5 100
     = Ok [("A", "apple"); ("A", "apple"); ("C", "cake"); ("B", "bread")]
  /\ sample_recommend price_score sample_df 1 2 100
     = Ok [("A", "apple"); ("A", "apple")].
Proof.
  split; [lia |].
  split; [reflexivity |].
  exact (@fewer_recommendations_are_a_prefix stable_argsort
           Z (fun z => z) (fun z => z) _
           whole_description_fit whole_description_transform
           price_score sample_df 1 2 5 100 _ ltac:(lia) eq_refl).
Defined.

Lemma nonpositive_n_recommendations_witness :
  sample_recommend price_score sample_df 1 (-1) 100
  = Ok [("A", "apple"); ("A", "apple"); ("C", "cake")]
  /\ -1 <= 0
  /\ length [("A", "apple"); ("A", "apple"); ("C", "cake")] = 3%nat
  /\ sample_recommend price_score sample_df 1 0 100 = Ok [].
Proof.
  split; [reflexivity |].
  split; [lia |].
  split; [reflexivity |].
  destruct (sample_recommend price_score sample_df 1 0 100) as [recs | e] eqn:H;
    [| vm_compute in H; discriminate].
  destruct (@nonpositive_n_recommendations stable_argsort stable_argsort_ok
              Z (fun z => z) (fun z => z) _ whole_description_fit
              whole_description_transform price_score sample_df 1 0 100
              recs H ltac:(lia)) as [Hzero _].
  now rewrite (Hzero eq_refl).
Defined.

Lemma candidate_pool_pairs_distinct_witness :
  argsort_spec stable_argsort
  /\ NoDup [("C", 7); ("A", 10); ("A", 12)].
Proof.
  split; [exact stable_argsort_ok |].
  exact (@candidate_pool_pairs_distinct stable_argsort stable_argsort_ok
           sample_df 3).
Defined.

Lemma candidate_pool_is_a_prefix_witness :
  0 <= 2 <= 3
  /\ top_n_items stable_argsort sample_df 2
     = firstn 2 (top_n_items stable_argsort sample_df 3).
Proof.
  split; [lia |].
  exact (proj1 (@candidate_pool_is_a_prefix stable_argsort sample_df 2 3
                  ltac:(lia))).
Defined.

Lemma negative_n_ranks_drops_least_popular_witness :
  argsort_spec stable_argsort
  /\ -1 < 0
  /\ length (top_n_items stable_argsort sample_df (-1)) = 3%nat.
Proof.
  split; [exact stable_argsort_ok |].
  split; [lia |].
  exact (proj2 (@negative_n_ranks_drops_least_popular stable_argsort
                  stable_argsort_ok sample_df (-1) ltac:(lia))).
Defined.


Lemma top_customer_recommendations_succeed_witness :
  sample_tx <> []
  /\ exists customer recs,
      top_customer stable_argsort Z.mul row_sum KeyError sample_tx = Ok customer
      /\ top_customer_recommendations stable_argsort Z.mul row_sum KeyError
           (fun z => z) (fun z => z)
           whole_description_fit whole_description_transform price_score
           sample_tx = Ok recs
      /\ length recs = 4%nat.
Proof.
  assert (Hne : sample_tx <> []) by discriminate.
  split; [exact Hne |].
  destruct (@top_customer_recommendations_succeed stable_argsort
              stable_argsort_ok Z.mul row_sum KeyError
              Z (fun z => z) (fun z => z) _
              whole_description_fit whole_description_transform price_score
              sample_tx (unique (map Description (map sold sample_tx)))
              Hne eq_refl (whole_description_rows _) price_score_rows)
    as (customer & recs & Hc & Hrecs & Hlen).
  exists customer, recs; split; [exact Hc |].
  split; [exact Hrecs | exact Hlen].
Defined.

Lemma regression_metrics_keep_last_value_witness :
  TrainingMetrics.sample_metrics
  = [ {| TrainingMetrics.MetricName := "train:rmse";
         TrainingMetrics.Value := 10 |};
      {| TrainingMetrics.MetricName := "test:rmse";
         TrainingMetrics.Value := 12 |} ]
    ++ {| TrainingMetrics.MetricName := "train:rmse";
          TrainingMetrics.Value := 9 |} :: []
  /\ getitem (TrainingMetrics.regression_metrics TrainingMetrics.sample_metrics)
       "train:rmse" = Ok 9
  /\ getitem (TrainingMetrics.regression_metrics TrainingMetrics.sample_metrics)
       "validation:rmse" = Raise KeyError.
Proof.
  split; [reflexivity |].
  destruct (@TrainingMetricsFacts.regression_metrics_keep_last_value Z
              TrainingMetrics.sample_metrics) as (_ & _ & Hlast & Hmiss).
  split.
  - apply (Hlast
             [ {| TrainingMetrics.MetricName := "train:rmse";
                  TrainingMetrics.Value := 10 |};
               {| TrainingMetrics.MetricName := "test:rmse";
                  TrainingMetrics.Value := 12 |} ]
             {| TrainingMetrics.MetricName := "train:rmse";
                TrainingMetrics.Value := 9 |} [] eq_refl).
    simpl; tauto.
  - apply Hmiss; simpl; intuition discriminate.
Defined.

Lemma polling_cell_exits_at_first_terminal_status_witness :
  (2 <= 5)%nat
  /\ exists st,
      ModelPackagePolling.cell ModelPackagePolling.two_pending_then_completed 5
      = ModelPackagePolling.Exited st
      /\ ModelPackagePolling.calls st = 3%nat
      /\ ModelPackagePollingTrace.slept (ModelPackagePolling.trace st) = 10.
Proof.
  split; [lia |].
  destruct (@ModelPackagePollingTraceFacts.polling_cell_exits_at_first_terminal_status
              ModelPackagePolling.two_pending_then_completed 2 5)
    as (st & Hcell & Hcalls & _ & _ & Hslept).
  - intros j Hj; exists "InProgress".
    destruct j as [| [| j]]; [split; reflexivity | split; reflexivity | lia].
  - exists "Completed"; split; reflexivity.
  - lia.
  - exists st; split; [exact Hcell |].
    split; [exact Hcalls | exact Hslept].
Defined.

Lemma polling_cell_propagates_exception_witness :
  ModelPackagePollingTrace.pending_then_throttled 1
  = Raise (ClientError "Throttling")
  /\ exists st,
      ModelPackagePolling.cell ModelPackagePollingTrace.pending_then_throttled 3
      = ModelPackagePolling.Raised (ClientError "Throttling") st
      /\ ModelPackagePolling.calls st = 2%nat.
Proof.
  split; [reflexivity |].
  apply (@ModelPackagePollingTraceFacts.polling_cell_propagates_exception
           ModelPackagePollingTrace.pending_then_throttled 1 3).
  - intros j Hj; exists "InProgress".
    destruct j as [| j]; [split; reflexivity | lia].
  - reflexivity.
  - lia.
Defined.

(** * What reaches the encoder, the empty pool, and the part of the sorts *)

(** ** Sorted permutations are unique up to ties *)









Section RecommenderRevisited.

Variable argsort : list Z -> list nat.
Hypothesis argsort_ok : argsort_spec argsort.

Variable F : Type.
Variable F_of_indicator : Z -> F.
Variable F_of_price : Z -> F.
Variable Vectorizer : Type.
Variable vectorizer_fit : list string -> result Vectorizer.
Variable vectorizer_transform : Vectorizer -> list string -> result (list (list F)).

Local Abbreviation encode :=
  (encode_candidates argsort F_of_indicator F_of_price
     vectorizer_fit vectorizer_transform).
Local Abbreviation recommend :=
  (get_recommendations argsort F_of_indicator F_of_price
     vectorizer_fit vectorizer_transform).

Lemma customer_country_unknown (df : DataFrame) (customer_id : Z) :
  ~ In customer_id (map CustomerID df) ->
  customer_country argsort df customer_id = Raise IndexError.
Proof.
  intros Hnot; unfold customer_country.
  replace (filter _ df) with (@nil row).
  - simpl; apply (most_common_nil argsort_ok).
  - symmetry; apply filter_nil_iff; intros r Hr.
    destruct (eqb_spec (CustomerID r) customer_id) as [Heq |]; [| reflexivity].
    exfalso; apply Hnot; rewrite <- Heq; now apply in_map.
Qed.

Lemma customer_country_known (df : DataFrame) (customer_id : Z) :
  In customer_id (map CustomerID df) ->
  exists country, customer_country argsort df customer_id = Ok country.
Proof.
  intros Hin; unfold customer_country.
  apply (most_common_total argsort_ok).
  apply in_map_iff in Hin; destruct Hin as (r & Hid & Hr).
  assert (Hf : In r (filter (fun r => eqb (CustomerID r) customer_id) df))
    by (apply filter_In; split; [exact Hr | now apply eqb_eq]).
  destruct (filter _ df); [destruct Hf | discriminate].
Qed.

Lemma call_of_unknown_customer (predict : Predictor F)
  (df : DataFrame) (customer_id n_recommendations n_ranks : Z) :
  ~ In customer_id (map CustomerID df) ->
  recommend predict df customer_id n_recommendations n_ranks = Raise IndexError.
Proof.
  intros Hnot; unfold get_recommendations, encode_candidates.
  destruct (item_map_defined argsort_ok df) as (imap & -> & _); cbn [bind].
  now rewrite customer_country_unknown.
Qed.


(** C5 (as the code behaves): with an empty candidate pool no list is
    returned, the call raises: [IndexError], from the country lookup, when
    the customer occurs on no row of the frame (as on a frame without rows),
    and [ValueError], from the encoder applied to the inference frame of
    zero rows, when the customer does occur. *)
Theorem empty_candidate_pool_raises (predict : Predictor F)
  (df : DataFrame) (customer_id n_recommendations n_ranks : Z) :
  top_n_items argsort df n_ranks = [] ->
  (exists e, recommend predict df customer_id n_recommendations n_ranks
             = Raise e)
  /\ (~ In customer_id (map CustomerID df) ->
      recommend predict df customer_id n_recommendations n_ranks
      = Raise IndexError)
  /\ (In customer_id (map CustomerID df) ->
      recommend predict df customer_id n_recommendations n_ranks
      = Raise ValueError).
Proof.
  intros Hempty.
  assert (Hunknown : ~ In customer_id (map CustomerID df) ->
            recommend predict df customer_id n_recommendations n_ranks
            = Raise IndexError) by apply call_of_unknown_customer.
  assert (Hknown : In customer_id (map CustomerID df) ->
            recommend predict df customer_id n_recommendations n_ranks
            = Raise ValueError).
  { intros Hin; unfold get_recommendations, encode_candidates.
    rewrite Hempty.
    assert (Hprices : top_n_prices argsort df n_ranks = []).
    { pose proof (top_n_prices_length argsort df n_ranks) as Hl.
      rewrite Hempty in Hl.
      destruct (top_n_prices argsort df n_ranks); [reflexivity | discriminate]. }
    rewrite Hprices.
    destruct (item_map_defined argsort_ok df) as (imap & -> & _); cbn [bind].
    destruct (@customer_country_known df customer_id Hin) as [country ->]; cbn [bind mapM].
    unfold inference_frame; cbn.
    destruct df as [| r t]; [destruct Hin | reflexivity]. }
  split; [| split; assumption].
  destruct (in_dec Z.eq_dec customer_id (map CustomerID df)) as [Hin | Hnot];
    eauto.
Qed.

End RecommenderRevisited.

(** ** Determinism *)

Section Determinism.

Variable F : Type.
Variable F_of_indicator : Z -> F.
Variable F_of_price : Z -> F.
Variable Vectorizer : Type.
Variable vectorizer_fit : list string -> result Vectorizer.
Variable vectorizer_transform : Vectorizer -> list string -> result (list (list F)).

Local Abbreviation encode_with argsort :=
  (encode_candidates argsort F_of_indicator F_of_price
     vectorizer_fit vectorizer_transform).
Local Abbreviation recommend_with argsort :=
  (get_recommendations argsort F_of_indicator F_of_price
     vectorizer_fit vectorizer_transform).



End Determinism.

(** ** Instances *)



Lemma empty_candidate_pool_raises_witness :
  argsort_spec stable_argsort
  /\ top_n_items stable_argsort sample_df 0 = []
  /\ In 1 (map CustomerID sample_df)
  /\ ~ In 9 (map CustomerID sample_df)
  /\ sample_recommend price_score sample_df 1 5 0 = Raise ValueError
  /\ sample_recommend price_score sample_df 9 5 0 = Raise IndexError.
Proof.
  assert (Hnot : ~ In 9 (map CustomerID sample_df)).
  { simpl; intros H.
    repeat (destruct H as [H | H]; [discriminate H |]); exact H. }
  assert (Hin : In 1 (map CustomerID sample_df)) by (simpl; auto).
  split; [exact stable_argsort_ok |].
  split; [reflexivity |].
  split; [exact Hin |].
  split; [exact Hnot |].
  split.
  - exact (proj2 (proj2
             (@empty_candidate_pool_raises
                stable_argsort stable_argsort_ok Z (fun z => z) (fun z => z)
                _ whole_description_fit whole_description_transform
                price_score sample_df 1 5 0 eq_refl)) Hin).
  - exact (proj1 (proj2
             (@empty_candidate_pool_raises
                stable_argsort stable_argsort_ok Z (fun z => z) (fun z => z)
                _ whole_description_fit whole_description_transform
                price_score sample_df 9 5 0 eq_refl)) Hnot).
Defined.


(** With equal scores the ranking follows the sort: the hypothesis of
    distinct scores cannot be dropped when the sort is exchanged. *)
Lemma tied_scores_follow_the_sort :
  get_recommendations stable_argsort (fun z => z) (fun z => z)
    whole_description_fit whole_description_transform
    (fun X => Ok (map (fun _ => 0) X)) tie_free_df 1 3 100
  = Ok [("B", "bread"); ("A", "apple"); ("C", "cake")]
  /\ get_recommendations unstable_argsort (fun z => z) (fun z => z)
       whole_description_fit whole_description_transform
       (fun X => Ok (map (fun _ => 0) X)) tie_free_df 1 3 100
     = Ok [("C", "cake"); ("A", "apple"); ("B", "bread")].
Proof.
  split; reflexivity.
Qed.

